(** * G-code importer (code/AssetLib/Gcode/GcodeLoader.cpp): a shallow embedding

    The development follows the source file top to bottom:

    - [ai_real] and [aiVector3D], the scalar and vector types of the importer;
    - the cursor helpers of ParsingUtils.h and fast_atof.h that the importer
      calls (these headers are not part of the two source files; they are
      modelled from the specification, and each such definition says so);
    - [GcodeLine], [ReadGcodeLine], [ReadGcodeMove], the [CreateMesh] closure
      and the main loop of [ReadGcodeFile];
    - the properties of the specification, settled against these definitions.

    Modelling conventions.  A [const char *] cursor into the NUL-terminated
    buffer is the [string] of the characters that remain; reading at the end
    of the string yields the terminating NUL.  [ai_real] is an exact rational
    extended with NaN: rounding and infinities are not modelled.  The
    properties use of this arithmetic only that the same operation on the
    same operands gives the same result and that x + 0 is x; the one
    identity that rounding would break, (a - b) + b = a, is used by
    [reset_origin_x_world] and [reset_origin_y_world] alone.  The members
    of the importer object ([m_absolute], [m_pos], [m_offset]) are threaded
    explicitly through every call.  [std::vector] sizes are natural numbers
    (they are far below the range of [int] and [unsigned int]).  The scene
    scaffolding (mesh names, nodes, material) is left out: a mesh is its
    vertex array and its face array. *)

From Stdlib Require Import ZArith QArith List Bool Lia Ascii String.
From Stdlib Require DecimalString DecimalNat.
Import ListNotations.

Local Open Scope Z_scope.

(** ** Scalars: [ai_real] *)

Inductive ai_real : Type :=
| NaN : ai_real
| Fin : Q -> ai_real.

Definition isnan (r : ai_real) : bool :=
  match r with NaN => true | Fin _ => false end.

Definition radd (a b : ai_real) : ai_real :=
  match a, b with
  | Fin x, Fin y => Fin (x + y)%Q
  | _, _ => NaN
  end.

Definition rsub (a b : ai_real) : ai_real :=
  match a, b with
  | Fin x, Fin y => Fin (x - y)%Q
  | _, _ => NaN
  end.

(** [a > b]; every comparison with NaN is false. *)
Definition rgtb (a b : ai_real) : bool :=
  match a, b with
  | Fin x, Fin y => negb (Qle_bool x y)
  | _, _ => false
  end.

Definition rzero : ai_real := Fin 0%Q.

Definition rofZ (n : Z) : ai_real := Fin (inject_Z n).

(** Numeric equality extended to NaN (two NaN are the same value here). *)
Definition req (a b : ai_real) : Prop :=
  match a, b with
  | NaN, NaN => True
  | Fin x, Fin y => (x == y)%Q
  | _, _ => False
  end.

(** ** Vectors: [aiVector3D] *)

Record aiVector3D : Type := mkVec { vx : ai_real; vy : ai_real; vz : ai_real }.

Definition vadd (a b : aiVector3D) : aiVector3D :=
  mkVec (radd (vx a) (vx b)) (radd (vy a) (vy b)) (radd (vz a) (vz b)).

Definition vsub (a b : aiVector3D) : aiVector3D :=
  mkVec (rsub (vx a) (vx b)) (rsub (vy a) (vy b)) (rsub (vz a) (vz b)).

Definition vzero : aiVector3D := mkVec rzero rzero rzero.

Definition vecZ (x y z : Z) : aiVector3D := mkVec (rofZ x) (rofZ y) (rofZ z).

Definition set_vx (p : aiVector3D) (r : ai_real) := mkVec r (vy p) (vz p).
Definition set_vy (p : aiVector3D) (r : ai_real) := mkVec (vx p) r (vz p).
Definition set_vz (p : aiVector3D) (r : ai_real) := mkVec (vx p) (vy p) r.

(** ** Cursor helpers (ParsingUtils.h, fast_atof.h) *)

Module ParsingUtils.

(** [*sz]: the character under the cursor, NUL at the end of the buffer. *)
Definition peek (sz : string) : ascii :=
  match sz with
  | EmptyString => zero
  | String c _ => c
  end.

(** [++sz]. *)
Definition next (sz : string) : string :=
  match sz with
  | EmptyString => EmptyString
  | String _ r => r
  end.

Definition is_char (c : ascii) (n : nat) : bool := Nat.eqb (nat_of_ascii c) n.

(** Modelled from the spec: ParsingUtils.h [IsSpace] is missing; a blank
    is a space or a tab. *)
Definition IsSpace (c : ascii) : bool := is_char c 32 || is_char c 9.

(** Modelled from the spec: ParsingUtils.h [IsLineEnd] is missing; a line
    ends at CR, LF, form feed or the terminating NUL. *)
Definition IsLineEnd (c : ascii) : bool :=
  is_char c 13 || is_char c 10 || is_char c 0 || is_char c 12.

(** Modelled from the spec: ParsingUtils.h [IsSpaceOrNewLine] is missing; a
    token ends at a blank or at a line end. *)
Definition IsSpaceOrNewLine (c : ascii) : bool := IsSpace c || IsLineEnd c.

(** Modelled from the spec: ParsingUtils.h [ToUpper] is missing; tags and
    command letters are case-insensitive ASCII. *)
Definition ToUpper (c : ascii) : ascii :=
  let n := nat_of_ascii c in
  if Nat.leb 97 n && Nat.leb n 122 then ascii_of_nat (n - 32) else c.

Fixpoint skip_while (p : ascii -> bool) (sz : string) : string :=
  match sz with
  | EmptyString => sz
  | String c r => if p c then skip_while p r else sz
  end.

(** Modelled from the spec: ParsingUtils.h [SkipSpaces] is missing; it
    skips blanks and reports whether the cursor is not at a line end. *)
Definition SkipSpaces (sz : string) : bool * string :=
  let out := skip_while IsSpace sz in
  (negb (IsLineEnd (peek out)), out).

(** Modelled from the spec: ParsingUtils.h [SkipSpacesAndLineEnd] is
    missing; it skips blanks and line breaks and reports whether input is
    left. *)
Definition SkipSpacesAndLineEnd (sz : string) : bool * string :=
  let out :=
    skip_while (fun c => IsSpace c || is_char c 13 || is_char c 10) sz in
  (negb (is_char (peek out) 0), out).

(** Modelled from the spec: ParsingUtils.h [SkipLine] is missing; it skips
    the rest of the line and the line break that ends it. *)
Definition SkipLine (sz : string) : string :=
  let eol :=
    skip_while
      (fun c => negb (is_char c 13 || is_char c 10 || is_char c 0)) sz in
  skip_while (fun c => is_char c 13 || is_char c 10) eol.

Definition IsDigit (c : ascii) : bool :=
  let n := nat_of_ascii c in Nat.leb 48 n && Nat.leb n 57.

Definition digit (c : ascii) : Z := Z.of_nat (nat_of_ascii c - 48).

(** Reads a run of decimal digits: the value so far, the number of digits
    read so far, and the cursor after the run. *)
Fixpoint digits (acc : Z) (n : nat) (sz : string) : Z * nat * string :=
  match sz with
  | EmptyString => (acc, n, sz)
  | String c r =>
      if IsDigit c then digits (acc * 10 + digit c) (S n) r
      else (acc, n, sz)
  end.

(** Modelled from the spec: fast_atof.h [strtoul10] is missing; it reads an
    unsigned decimal integer into an [unsigned int], which wraps modulo
    2^32. *)
Definition strtoul10 (sz : string) : Z * string :=
  let '(value, _, out) := digits 0 0 sz in
  (value mod 2 ^ 32, out).

(** The conversion [int g = <unsigned int>] of [ReadGcodeMove]. *)
Definition to_int (u : Z) : Z :=
  if u <? 2 ^ 31 then u else u - 2 ^ 32.

(** Whether a numeric literal starts here: a digit, or a decimal point
    followed by a digit. *)
Definition starts_number (c : string) : bool :=
  IsDigit (peek c) || (is_char (peek c) 46 && IsDigit (peek (next c))).

(** Modelled from the spec: fast_atof.h [fast_atof] is missing.  It reads
    an optional sign, an integer part and an optional fraction.  Where no
    digits follow, it yields the NaN-sentineled "missing" value and leaves
    the cursor where it was. *)
Definition fast_atof (sz : string) : ai_real * string :=
  let inv := is_char (peek sz) 45 in
  let c := if inv || is_char (peek sz) 43 then next sz else sz in
  if starts_number c then
    let '(ipart, _, c1) := digits 0 0 c in
    let f := inject_Z ipart in
    let '(f, c2) :=
      if is_char (peek c1) 46 && IsDigit (peek (next c1)) then
        let '(fpart, n, c2) := digits 0 0 (next c1) in
        (Qplus f (Qmake fpart (Z.to_pos (10 ^ Z.of_nat n))), c2)
      else if is_char (peek c1) 46 then (f, next c1)
      else (f, c1) in
    (Fin (if inv then (- f)%Q else f), c2)
  else (NaN, sz).

(** A malformed numeric literal: after the optional sign, no digits. *)
Definition malformed (sz : string) : bool :=
  negb (starts_number
          (if is_char (peek sz) 45 || is_char (peek sz) 43 then next sz else sz)).

End ParsingUtils.

Import ParsingUtils.

(** ** [struct GcodeLine] *)

Record GcodeLine : Type := mkLine { x : ai_real; y : ai_real; z : ai_real; e : ai_real }.

(** The default member initialisers: every field is NAN. *)
Definition GcodeLine_default : GcodeLine := mkLine NaN NaN NaN NaN.

Definition HasX (v : GcodeLine) : bool := negb (isnan (x v)).
Definition HasY (v : GcodeLine) : bool := negb (isnan (y v)).
Definition HasZ (v : GcodeLine) : bool := negb (isnan (z v)).
Definition HasE (v : GcodeLine) : bool := negb (isnan (e v)).

Definition GetX (v : GcodeLine) (f : ai_real) : ai_real := if HasX v then x v else f.
Definition GetY (v : GcodeLine) (f : ai_real) : ai_real := if HasY v then y v else f.
Definition GetZ (v : GcodeLine) (f : ai_real) : ai_real := if HasZ v then z v else f.
Definition GetE (v : GcodeLine) (f : ai_real) : ai_real := if HasE v then e v else f.

Definition set_x (v : GcodeLine) (r : ai_real) := mkLine r (y v) (z v) (e v).
Definition set_y (v : GcodeLine) (r : ai_real) := mkLine (x v) r (z v) (e v).
Definition set_z (v : GcodeLine) (r : ai_real) := mkLine (x v) (y v) r (e v).
Definition set_e (v : GcodeLine) (r : ai_real) := mkLine (x v) (y v) (z v) r.

Definition IsComment (c : ascii) : bool := is_char c 59.

Definition SkipValue (sz : string) : string :=
  skip_while (fun c => negb (IsSpaceOrNewLine c) && negb (IsComment c)) sz.

(** The loop of [ReadGcodeLine].  Every round consumes the tag character, so
    [fuel] rounds suffice for a cursor with at most [fuel] characters left
    (see [ReadGcodeLine_loop_fuel]). *)
Fixpoint ReadGcodeLine_loop (fuel : nat) (v : GcodeLine) (sz : string)
  : GcodeLine * string :=
  match fuel with
  | O => (v, sz)
  | S fuel' =>
      let (more, sz1) := SkipSpaces sz in
      if more then
        let tag := ToUpper (peek sz1) in
        let sz2 := next sz1 in
        if is_char tag 88 then
          let (r, sz3) := fast_atof sz2 in ReadGcodeLine_loop fuel' (set_x v r) sz3
        else if is_char tag 89 then
          let (r, sz3) := fast_atof sz2 in ReadGcodeLine_loop fuel' (set_y v r) sz3
        else if is_char tag 90 then
          let (r, sz3) := fast_atof sz2 in ReadGcodeLine_loop fuel' (set_z v r) sz3
        else if is_char tag 69 then
          let (r, sz3) := fast_atof sz2 in ReadGcodeLine_loop fuel' (set_e v r) sz3
        else if is_char tag 59 then (v, sz2)
        else ReadGcodeLine_loop fuel' v (SkipValue sz2)
      else (v, sz1)
  end.

Definition ReadGcodeLine (sz : string) : GcodeLine * string :=
  ReadGcodeLine_loop (String.length sz) GcodeLine_default sz.

(** ** [class GcodeImporter] *)

Inductive GcodeMove : Type := GcodeMove_None | Travel | Extrusion.

Record GcodeImporter : Type := mkImporter {
  m_absolute : bool;
  m_pos : aiVector3D;
  m_offset : aiVector3D
}.

(** The default member initialisers of GcodeLoader.h. *)
Definition GcodeImporter_default : GcodeImporter := mkImporter true vzero vzero.

Definition set_absolute (s : GcodeImporter) (b : bool) :=
  mkImporter b (m_pos s) (m_offset s).
Definition set_pos (s : GcodeImporter) (p : aiVector3D) :=
  mkImporter (m_absolute s) p (m_offset s).
Definition set_offset (s : GcodeImporter) (p : aiVector3D) :=
  mkImporter (m_absolute s) (m_pos s) p.

Definition ToLogicalPosition (self : GcodeImporter) (pos : aiVector3D) : aiVector3D :=
  vsub pos (m_offset self).

Definition ToAbsolutePosition (self : GcodeImporter) (pos : aiVector3D) : aiVector3D :=
  vadd (m_offset self) pos.

(** The classification after the [switch] of [ReadGcodeMove]. *)
Definition classify (v : GcodeLine) : GcodeMove :=
  if rgtb (GetE v rzero) rzero then Extrusion
  else if HasX v || HasY v || HasZ v then Travel
  else GcodeMove_None.

(** [case 7] (and [case 0], [case 1] falling through when not absolute). *)
Definition relative_move (self : GcodeImporter) (v : GcodeLine) : aiVector3D :=
  mkVec (radd (vx (m_pos self)) (GetX v rzero))
        (radd (vy (m_pos self)) (GetY v rzero))
        (radd (vz (m_pos self)) (GetZ v rzero)).

Definition absolute_move (self : GcodeImporter) (v : GcodeLine) : aiVector3D :=
  mkVec (GetX v (vx (m_pos self)))
        (GetY v (vy (m_pos self)))
        (GetZ v (vz (m_pos self))).

(** [case 92]. *)
Definition reset_origin (self : GcodeImporter) (v : GcodeLine) : GcodeImporter :=
  if negb (HasX v) && negb (HasY v) && negb (HasZ v) && negb (HasE v) then
    let self1 := set_offset self (ToAbsolutePosition self (m_pos self)) in
    set_pos self1 (mkVec rzero rzero rzero)
  else
    let abs := ToAbsolutePosition self (m_pos self) in
    let self1 :=
      if HasX v then
        let s := set_pos self (set_vx (m_pos self) (GetX v rzero)) in
        set_offset s (set_vx (m_offset s) (rsub (vx abs) (vx (m_pos s))))
      else self in
    let self2 :=
      if HasY v then
        let s := set_pos self1 (set_vy (m_pos self1) (GetY v rzero)) in
        set_offset s (set_vy (m_offset s) (rsub (vy abs) (vy (m_pos s))))
      else self1 in
    if HasZ v then
      let s := set_pos self2 (set_vz (m_pos self2) (GetZ v rzero)) in
      set_offset s (set_vz (m_offset s) (rsub (vz abs) (vy (m_pos s))))
    else self2.

(** [ReadGcodeMove] once the command code [g] and the axis values [v] of the
    line are read: the [switch] and the classification that follows it.  The
    result is the importer after the call, the value left in the reference
    parameter [pos], and the returned move. *)
Definition ReadGcodeMove_switch
    (self : GcodeImporter) (g : Z) (v : GcodeLine) (pos : aiVector3D)
  : GcodeImporter * aiVector3D * GcodeMove :=
  if (g =? 0) || (g =? 1) then
    if m_absolute self then (self, absolute_move self v, classify v)
    else (self, relative_move self v, classify v)
  else if g =? 7 then (self, relative_move self v, classify v)
  else if g =? 90 then (set_absolute self true, pos, GcodeMove_None)
  else if g =? 91 then (set_absolute self false, pos, GcodeMove_None)
  else if g =? 92 then (reset_origin self v, pos, GcodeMove_None)
  else (self, pos, GcodeMove_None).

Definition ReadGcodeMove (self : GcodeImporter) (sz : string) (pos : aiVector3D)
  : GcodeImporter * string * aiVector3D * GcodeMove :=
  let (u, sz1) := strtoul10 sz in
  let g := to_int u in
  let (v, sz2) := ReadGcodeLine sz1 in
  let '(self1, pos1, move) := ReadGcodeMove_switch self g v pos in
  (self1, sz2, pos1, move).

(** ** [ReadGcodeFile] *)

Record aiFace : Type := mkFace { mIndices : list nat }.

Record aiMesh : Type := mkMesh { mVertices : list aiVector3D; mFaces : list aiFace }.

Definition mNumVertices (m : aiMesh) : nat := List.length (mVertices m).
Definition mNumFaces (m : aiMesh) : nat := List.length (mFaces m).

(** The index sequence of a mesh: the indices of its faces, in order. *)
Definition mesh_indices (m : aiMesh) : list nat := flat_map mIndices (mFaces m).

(** The locals of [ReadGcodeFile] that its closure [CreateMesh] captures. *)
Record Builder : Type := mkBuilder {
  meshes : list aiMesh;
  indices : list nat;
  positions : list aiVector3D
}.

Definition Builder_empty : Builder := mkBuilder [] [] [].

(** The face loop of [CreateMesh]: [n] faces starting at index [p]. *)
Fixpoint make_faces (n p : nat) (indices : list nat) : list aiFace :=
  match n with
  | O => []
  | S n' =>
      mkFace [nth p indices O; nth (p + 1) indices O]
        :: make_faces n' (p + 2) indices
  end.

Definition CreateMesh (self : GcodeImporter) (b : Builder) : Builder :=
  match positions b with
  | [] => b
  | _ :: _ =>
      let pMesh :=
        mkMesh (map (ToAbsolutePosition self) (positions b))
               (make_faces (Nat.div (List.length (indices b)) 2) 0 (indices b)) in
      mkBuilder (meshes b ++ [pMesh]) [] []
  end.

(** The body of the [G] branch after [ReadGcodeMove] has returned: [self] is
    the importer after the call, [pos] and [move] what the call produced. *)
Definition on_move (self : GcodeImporter) (b : Builder) (pos : aiVector3D)
    (move : GcodeMove) : GcodeImporter * Builder :=
  let b1 :=
    match move with
    | Extrusion =>
        let positions1 := positions b ++ [m_pos self; pos] in
        let size := List.length positions1 in
        if Nat.ltb 1 size then
          mkBuilder (meshes b) (indices b ++ [size - 2; size - 1])%nat positions1
        else mkBuilder (meshes b) (indices b) positions1
    | Travel => CreateMesh self b
    | GcodeMove_None => b
    end in
  (set_pos self pos, b1).

(** [strncasecmp(sz, "G", 1) == 0]. *)
Definition is_G (sz : string) : bool := is_char (peek sz) 71 || is_char (peek sz) 103.

Fixpoint ReadGcodeFile_loop (fuel : nat) (self : GcodeImporter) (b : Builder)
    (sz : string) : GcodeImporter * Builder :=
  match fuel with
  | O => (self, b)
  | S fuel' =>
      let (more, sz1) := SkipSpacesAndLineEnd sz in
      if more then
        if is_G sz1 then
          let pos := m_pos self in
          let '(self1, sz2, pos1, move) := ReadGcodeMove self (next sz1) pos in
          let (self2, b2) := on_move self1 b pos1 move in
          ReadGcodeFile_loop fuel' self2 b2 sz2
        else ReadGcodeFile_loop fuel' self b (SkipLine sz1)
      else (self, b)
  end.

(** [ReadGcodeFile]: the importer after the parse and the meshes of the
    scene. *)
Definition ReadGcodeFile (self : GcodeImporter) (sz : string)
  : GcodeImporter * list aiMesh :=
  let (self1, b) := ReadGcodeFile_loop (String.length sz) self Builder_empty sz in
  (self1, meshes (CreateMesh self1 b)).

(** ** The command stream

    [ReadGcodeFile] interleaves tokenising and interpreting.  The two are
    separated here: [commands_of] is the list of (code, axis values) pairs
    that the loop reads, [GcodeCommand] what one round of the loop does with
    such a pair, and [ReadGcodeFile_loop_commands] shows that the loop is the
    fold of the second over the first. *)

Definition GcodeCommand (st : GcodeImporter * Builder) (c : Z * GcodeLine)
  : GcodeImporter * Builder :=
  let '(self1, pos1, move) :=
    ReadGcodeMove_switch (fst st) (fst c) (snd c) (m_pos (fst st)) in
  on_move self1 (snd st) pos1 move.

Definition run_commands (st : GcodeImporter * Builder) (cs : list (Z * GcodeLine))
  : GcodeImporter * Builder :=
  fold_left GcodeCommand cs st.

(** End of input: the last [CreateMesh()] and the meshes handed to the scene. *)
Definition finish (st : GcodeImporter * Builder) : list aiMesh :=
  meshes (CreateMesh (fst st) (snd st)).

(** A whole parse of an already tokenised stream, from empty buffers. *)
Definition ReadGcodeCommands (self : GcodeImporter) (cs : list (Z * GcodeLine))
  : list aiMesh :=
  finish (run_commands (self, Builder_empty) cs).

Fixpoint commands_of (fuel : nat) (sz : string) : list (Z * GcodeLine) :=
  match fuel with
  | O => []
  | S fuel' =>
      let (more, sz1) := SkipSpacesAndLineEnd sz in
      if more then
        if is_G sz1 then
          let (u, sz2) := strtoul10 (next sz1) in
          let (v, sz3) := ReadGcodeLine sz2 in
          (to_int u, v) :: commands_of fuel' sz3
        else commands_of fuel' (SkipLine sz1)
      else []
  end.

(** The world position of the head: [ToAbsolutePosition(m_pos)]. *)
Definition world (self : GcodeImporter) : aiVector3D :=
  ToAbsolutePosition self (m_pos self).

(** The commands the properties speak about. *)
Definition linear_code (g : Z) : bool := (g =? 0) || (g =? 1) || (g =? 7).

Definition is_deposition (c : Z * GcodeLine) : bool :=
  linear_code (fst c) && rgtb (GetE (snd c) rzero) rzero.

Definition is_travel (c : Z * GcodeLine) : bool :=
  linear_code (fst c) && negb (rgtb (GetE (snd c) rzero) rzero)
  && (HasX (snd c) || HasY (snd c) || HasZ (snd c)).

(** The move [ReadGcodeMove] returns for a command. *)
Definition move_of (self : GcodeImporter) (c : Z * GcodeLine) : GcodeMove :=
  snd (ReadGcodeMove_switch self (fst c) (snd c) (m_pos self)).

(** One round of [ReadGcodeLine] on an axis tag whose literal is malformed:
    the field is assigned NaN and the scan goes on where the tag ended. *)
Definition reads_absent (tag : ascii) (set : GcodeLine -> ai_real -> GcodeLine)
    (rest : string) : Prop :=
  forall (fuel : nat) (v : GcodeLine),
    ReadGcodeLine_loop (S fuel) v (String tag rest)
    = ReadGcodeLine_loop fuel (set v NaN) rest.

(** A code-92 line that changes the offset: one with x, y or z present, or
    one with no field at all. *)
Definition resets_offset (c : Z * GcodeLine) : bool :=
  (fst c =? 92)
  && (HasX (snd c) || HasY (snd c) || HasZ (snd c) || negb (HasE (snd c))).

(** The importer after one round of the main loop (buffers aside). *)
Definition next_importer (self : GcodeImporter) (c : Z * GcodeLine) : GcodeImporter :=
  fst (GcodeCommand (self, Builder_empty) c).

(** The faces (p,p+1), (p+2,p+3), ... : [n] disjoint pairs. *)
Fixpoint pair_faces (n p : nat) : list aiFace :=
  match n with
  | O => []
  | S n' => mkFace [p; p + 1]%nat :: pair_faces n' (p + 2)
  end.

(** The number of deposition moves of a command list. *)
Definition depositions (cs : list (Z * GcodeLine)) : nat :=
  List.length (filter is_deposition cs).

(** What the buffers of [ReadGcodeFile] always look like: the index buffer
    counts the points, and the points come in pairs. *)
Definition builder_wf (b : Builder) : Prop :=
  indices b = seq 0 (List.length (positions b))
  /\ exists k : nat, List.length (positions b) = (2 * k)%nat.

Definition mesh_wf (m : aiMesh) : Prop :=
  mesh_indices m = seq 0 (mNumVertices m)
  /\ mNumVertices m = (2 * mNumFaces m)%nat.

(** ** The Stroke Builder as the specification words it

    Section 4.3 of the specification: on a Deposition the builder appends the
    previous world position and the new world position; on a Travel, and at
    the end of the stream, a non-empty accumulation becomes a Stroke as it
    is.  The motion state machine underneath is the code's.  [spec_strokes]
    is compared with the vertex arrays of [ReadGcodeCommands] below. *)

Record StrokeBuilder : Type := mkStrokes {
  strokes : list (list aiVector3D);
  accumulation : list aiVector3D
}.

Definition spec_finalize (sb : StrokeBuilder) : StrokeBuilder :=
  match accumulation sb with
  | [] => sb
  | _ :: _ => mkStrokes (strokes sb ++ [accumulation sb]) []
  end.

Definition spec_command (st : GcodeImporter * StrokeBuilder) (c : Z * GcodeLine)
  : GcodeImporter * StrokeBuilder :=
  let self := fst st in
  let self1 := next_importer self c in
  let sb :=
    match move_of self c with
    | Extrusion =>
        mkStrokes (strokes (snd st))
                  (accumulation (snd st) ++ [world self; world self1])
    | Travel => spec_finalize (snd st)
    | GcodeMove_None => snd st
    end in
  (self1, sb).

Definition spec_strokes (self : GcodeImporter) (cs : list (Z * GcodeLine))
  : list (list aiVector3D) :=
  strokes (spec_finalize (snd (fold_left spec_command cs (self, mkStrokes [] [])))).

(** The buffers of the code against the builder of the specification, as
    long as the offset stays [o]. *)
Definition same_strokes (o : aiVector3D) (st : GcodeImporter * Builder)
    (ss : GcodeImporter * StrokeBuilder) : Prop :=
  fst ss = fst st /\ m_offset (fst st) = o
  /\ accumulation (snd ss) = map (vadd o) (positions (snd st))
  /\ strokes (snd ss) = map mVertices (meshes (snd st)).

(** The scenario of the specification (section 8): six lines separated by
    line feeds. *)
Definition LF : string := String (ascii_of_nat 10) EmptyString.

Definition scenario : string :=
  ("G90" ++ LF ++ "G1 X0 Y0 E1" ++ LF ++ "G1 X10 Y0 E1" ++ LF ++ "G0 X10 Y10"
   ++ LF ++ "G1 X10 Y10 E1" ++ LF ++ "G1 X20 Y10 E1")%string.

(** ** Vocabulary for the properties of the whole parse *)

(** The codes with a [case] of their own in [ReadGcodeMove]. *)
Definition known_code (g : Z) : bool :=
  linear_code g || (g =? 90) || (g =? 91) || (g =? 92).

(** Exchanges the codes 0 and 1 of a command. *)
Definition swap01 (c : Z * GcodeLine) : Z * GcodeLine :=
  if fst c =? 0 then (1, snd c)
  else if fst c =? 1 then (0, snd c)
  else c.

Definition total_faces (ms : list aiMesh) : nat := list_sum (map mNumFaces ms).

Definition total_vertices (ms : list aiMesh) : nat := list_sum (map mNumVertices ms).

(** A point sequence read as segments (0,1), (2,3), ... is a connected
    polyline when every segment starts where the one before it ended. *)
Definition connected (ps : list aiVector3D) : Prop :=
  forall (i : nat) (a b : aiVector3D),
    nth_error ps (2 * i + 1) = Some a -> nth_error ps (2 * i + 2) = Some b ->
    a = b.

(** A mesh as [CreateMesh] builds it: k >= 1 faces (0,1), (2,3), ... over
    2k vertices. *)
Definition mesh_shape (m : aiMesh) : Prop :=
  exists k : nat,
    (1 <= k)%nat /\ mFaces m = pair_faces k 0
    /\ List.length (mVertices m) = (2 * k)%nat.

(** The commands [ReadGcodeFile] reads from a buffer. *)
Definition commands_of_buffer (sz : string) : list (Z * GcodeLine) :=
  commands_of (String.length sz) sz.



(** ** The scene scaffolding of [ReadGcodeFile]

    Besides the mesh itself [CreateMesh] names the mesh after its index
    ([std::to_string(meshes.size())]) and creates a node under the root that
    refers to it ([mMeshes[0] = meshes.size()]); [ReadGcodeFile] ends by
    copying the meshes and the nodes into the scene and naming the root
    node.  Every node is created with the root as its parent; the parent
    pointer is not modelled. *)

(** [std::to_string] of a [size_t]: the decimal numeral. *)
Definition to_string (n : nat) : string :=
  DecimalString.NilEmpty.string_of_uint (Nat.to_uint n).

Record aiNode : Type := mkNode { mNumMeshes : nat; mMeshes : list nat }.

(** The buffers of [ReadGcodeFile] with the two vectors left out of
    [Builder]: the names given to the meshes, in order, and [nodes]. *)
Record SceneBuilder : Type := mkScene {
  buffers : Builder;
  mesh_names : list string;
  nodes : list aiNode
}.

Definition SceneBuilder_empty : SceneBuilder := mkScene Builder_empty [] [].

Definition CreateMesh_scene (self : GcodeImporter) (s : SceneBuilder) : SceneBuilder :=
  match positions (buffers s) with
  | [] => s
  | _ :: _ =>
      let n := List.length (meshes (buffers s)) in
      mkScene (CreateMesh self (buffers s))
              (mesh_names s ++ [to_string n])
              (nodes s ++ [mkNode 1 [n]])
  end.

Definition on_move_scene (self : GcodeImporter) (s : SceneBuilder)
    (pos : aiVector3D) (move : GcodeMove) : GcodeImporter * SceneBuilder :=
  match move with
  | Travel => (set_pos self pos, CreateMesh_scene self s)
  | _ =>
      (set_pos self pos,
       mkScene (snd (on_move self (buffers s) pos move)) (mesh_names s) (nodes s))
  end.

Definition GcodeCommand_scene (st : GcodeImporter * SceneBuilder)
    (c : Z * GcodeLine) : GcodeImporter * SceneBuilder :=
  let '(self1, pos1, move) :=
    ReadGcodeMove_switch (fst st) (fst c) (snd c) (m_pos (fst st)) in
  on_move_scene self1 (snd st) pos1 move.

(** What [ReadGcodeFile] leaves in the scene. *)
Record aiScene : Type := mkAiScene {
  mNumMeshes_scene : nat;
  mMeshes_scene : list aiMesh;
  mMeshNames : list string;
  mRootName : string;
  mNumChildren : nat;
  mChildren : list aiNode
}.

Definition ReadGcodeScene (self : GcodeImporter) (cs : list (Z * GcodeLine))
  : aiScene :=
  let st := fold_left GcodeCommand_scene cs (self, SceneBuilder_empty) in
  let s := CreateMesh_scene (fst st) (snd st) in
  mkAiScene (List.length (meshes (buffers s))) (meshes (buffers s))
            (mesh_names s) "G"
            (List.length (nodes s)) (nodes s).

(** Names and nodes run in step with the meshes. *)
Definition scene_in_step (s : SceneBuilder) : Prop :=
  mesh_names s = map to_string (seq 0 (List.length (meshes (buffers s))))
  /\ nodes s
     = map (fun i => mkNode 1 [i]) (seq 0 (List.length (meshes (buffers s)))).

(** Whether every code-92 line of a stream that changes the offset falls
    outside an open stroke, that is, at a moment when no point is buffered;
    [opened] says whether points are buffered where the stream starts. *)
Fixpoint resets_between_strokes (opened : bool) (cs : list (Z * GcodeLine)) : bool :=
  match cs with
  | [] => true
  | c :: cs' =>
      if is_deposition c then resets_between_strokes true cs'
      else if is_travel c then resets_between_strokes false cs'
      else negb (opened && resets_offset c) && resets_between_strokes opened cs'
  end.

(** The buffers of the code against the builder of the specification under
    the current offset; without an open stroke the point buffer is empty. *)
Definition strokes_in_step (opened : bool) (st : GcodeImporter * Builder)
    (ss : GcodeImporter * StrokeBuilder) : Prop :=
  same_strokes (m_offset (fst st)) st ss
  /\ (opened = false -> positions (snd st) = []).

(** Where the cursor of [ReadGcodeLine] comes to rest: at the first line
    end (CR, LF, form feed, NUL or the end of the buffer) or just behind
    the first comment marker, whichever comes first. *)
Fixpoint end_of_fields (sz : string) : string :=
  match sz with
  | EmptyString => sz
  | String c r =>
      if IsLineEnd c then sz
      else if IsComment c then r
      else end_of_fields r
  end.

(** A character of the fields of a line: no line end and no comment marker. *)
Definition in_fields (c : ascii) : bool := negb (IsLineEnd c) && negb (IsComment c).

(** The main loop of [ReadGcodeFile] once more, returning the cursor as
    well: where the [while] condition fails the cursor is the one
    [SkipSpacesAndLineEnd] left; when the rounds run out it is the cursor
    not yet looked at. *)
Fixpoint ReadGcodeFile_run (fuel : nat) (self : GcodeImporter) (b : Builder)
    (sz : string) : GcodeImporter * Builder * string :=
  match fuel with
  | O => (self, b, sz)
  | S fuel' =>
      let (more, sz1) := SkipSpacesAndLineEnd sz in
      if more then
        if is_G sz1 then
          let pos := m_pos self in
          let '(self1, sz2, pos1, move) := ReadGcodeMove self (next sz1) pos in
          let (self2, b2) := on_move self1 b pos1 move in
          ReadGcodeFile_run fuel' self2 b2 sz2
        else ReadGcodeFile_run fuel' self b (SkipLine sz1)
      else (self, b, sz1)
  end.

(** * Properties *)

(** ** Arithmetic of [ai_real] *)

Lemma radd_0_r (a : ai_real) : radd a rzero = a.
Proof.
  destruct a as [|[n d]]; simpl; trivial.
  unfold Qplus; simpl.
  now rewrite Z.mul_1_r, Z.add_0_r, Pos.mul_1_r.
Qed.

Lemma vadd_0_r (p : aiVector3D) : vadd p (mkVec rzero rzero rzero) = p.
Proof.
  destruct p; unfold vadd; simpl; now rewrite !radd_0_r.
Qed.

Lemma req_sub_add (a b : ai_real) : isnan b = false -> req (radd (rsub a b) b) a.
Proof.
  destruct a, b; simpl; intros H; try discriminate; trivial.
  ring.
Qed.

(** ** Cursors only move forward *)

Lemma skip_while_length (p : ascii -> bool) (sz : string) :
  (String.length (skip_while p sz) <= String.length sz)%nat.
Proof.
  induction sz as [|c r IH]; simpl; [lia|].
  destruct (p c); simpl; lia.
Qed.

Lemma next_length (sz : string) :
  (String.length (next sz) <= String.length sz)%nat.
Proof. destruct sz; simpl; lia. Qed.

Lemma next_length_lt (sz : string) :
  is_char (peek sz) 0 = false -> (String.length (next sz) < String.length sz)%nat.
Proof. destruct sz; simpl; [discriminate | lia]. Qed.

Lemma digits_length (sz : string) (acc : Z) (n : nat) :
  (String.length (snd (digits acc n sz)) <= String.length sz)%nat.
Proof.
  revert acc n; induction sz as [|c r IH]; intros acc n; simpl; [lia|].
  destruct (IsDigit c); simpl; [specialize (IH (acc * 10 + digit c) (S n))|]; lia.
Qed.

Lemma strtoul10_length (sz : string) :
  (String.length (snd (strtoul10 sz)) <= String.length sz)%nat.
Proof.
  unfold strtoul10. pose proof (digits_length sz 0 0) as H.
  destruct (digits 0 0 sz) as [[value n] out]; simpl in *; lia.
Qed.

Lemma fast_atof_length (sz : string) :
  (String.length (snd (fast_atof sz)) <= String.length sz)%nat.
Proof.
  unfold fast_atof; cbv zeta.
  set (c := if is_char (peek sz) 45 || is_char (peek sz) 43 then next sz else sz).
  assert (Hc : (String.length c <= String.length sz)%nat).
  { subst c. destruct (is_char (peek sz) 45 || is_char (peek sz) 43);
      [apply next_length | lia]. }
  destruct (starts_number c); simpl; [|lia].
  pose proof (digits_length c 0 0) as H1.
  destruct (digits 0 0 c) as [[ipart n1] c1]; simpl in H1.
  destruct (is_char (peek c1) 46 && IsDigit (peek (next c1))).
  - pose proof (digits_length (next c1) 0 0) as H2.
    pose proof (next_length c1) as H3.
    destruct (digits 0 0 (next c1)) as [[fpart n2] c2]; simpl in *; lia.
  - pose proof (next_length c1) as H3.
    destruct (is_char (peek c1) 46); simpl; lia.
Qed.

Lemma SkipSpaces_length (sz : string) :
  (String.length (snd (SkipSpaces sz)) <= String.length sz)%nat.
Proof. unfold SkipSpaces; simpl; apply skip_while_length. Qed.

Lemma SkipSpaces_more (sz : string) :
  fst (SkipSpaces sz) = true -> is_char (peek (snd (SkipSpaces sz))) 0 = false.
Proof.
  unfold SkipSpaces, IsLineEnd; simpl.
  destruct (is_char (peek (skip_while IsSpace sz)) 0); trivial.
  rewrite orb_true_r, orb_true_l. discriminate.
Qed.

Lemma SkipValue_length (sz : string) :
  (String.length (SkipValue sz) <= String.length sz)%nat.
Proof. apply skip_while_length. Qed.

(** ** Enough fuel: the loops run to the end of their input *)

Ltac atof_step sz2 :=
  let H := fresh "Hatof" in
  pose proof (fast_atof_length sz2) as H;
  destruct (fast_atof sz2) as [? ?]; simpl in H.

Lemma ReadGcodeLine_loop_length (fuel : nat) (v : GcodeLine) (sz : string) :
  (String.length (snd (ReadGcodeLine_loop fuel v sz)) <= String.length sz)%nat.
Proof.
  revert v sz; induction fuel as [|fuel IH]; intros v sz; cbn [ReadGcodeLine_loop].
  - simpl; lia.
  - pose proof (SkipSpaces_length sz) as H1.
    destruct (SkipSpaces sz) as [more sz1]; simpl in H1.
    destruct more; [|simpl; lia].
    pose proof (next_length sz1) as H2.
    pose proof (SkipValue_length (next sz1)) as H3.
    repeat
      match goal with
      | |- context [if is_char ?t ?n then _ else _] => destruct (is_char t n)
      end;
    try (atof_step (next sz1);
         match goal with
         | |- context [ReadGcodeLine_loop fuel ?w ?s] => specialize (IH w s)
         end; lia);
    try (specialize (IH v (SkipValue (next sz1))); lia).
    simpl; lia.
Qed.

Lemma ReadGcodeLine_loop_fuel (f1 f2 : nat) (v : GcodeLine) (sz : string) :
  (String.length sz <= f1)%nat -> (String.length sz <= f2)%nat ->
  ReadGcodeLine_loop f1 v sz = ReadGcodeLine_loop f2 v sz.
Proof.
  revert f2 v sz; induction f1 as [|f1 IH]; intros f2 v sz L1 L2.
  - destruct sz; [|simpl in L1; lia]. destruct f2; reflexivity.
  - destruct f2 as [|f2].
    { destruct sz; [reflexivity | simpl in L2; lia]. }
    cbn [ReadGcodeLine_loop].
    pose proof (SkipSpaces_length sz) as H1.
    pose proof (SkipSpaces_more sz) as H0.
    destruct (SkipSpaces sz) as [more sz1]; simpl in H1, H0.
    destruct more; [|reflexivity].
    pose proof (next_length_lt sz1 (H0 eq_refl)) as H2.
    pose proof (SkipValue_length (next sz1)) as H3.
    repeat
      match goal with
      | |- context [if is_char ?t ?n then _ else _] => destruct (is_char t n)
      end;
    try (atof_step (next sz1); apply IH; lia);
    try (apply IH; lia).
    reflexivity.
Qed.

(** [ReadGcodeLine] gives the same line with any larger number of rounds. *)
Lemma ReadGcodeLine_fuel (fuel : nat) (sz : string) :
  (String.length sz <= fuel)%nat ->
  ReadGcodeLine_loop fuel GcodeLine_default sz = ReadGcodeLine sz.
Proof. intros L; apply ReadGcodeLine_loop_fuel; lia. Qed.

Lemma ReadGcodeLine_length (sz : string) :
  (String.length (snd (ReadGcodeLine sz)) <= String.length sz)%nat.
Proof. apply ReadGcodeLine_loop_length. Qed.

Lemma SkipSpacesAndLineEnd_length (sz : string) :
  (String.length (snd (SkipSpacesAndLineEnd sz)) <= String.length sz)%nat.
Proof. unfold SkipSpacesAndLineEnd; simpl; apply skip_while_length. Qed.

Lemma SkipLine_length_lt (sz : string) :
  is_char (peek sz) 0 = false -> is_char (peek sz) 13 = false ->
  is_char (peek sz) 10 = false ->
  (String.length (SkipLine sz) < String.length sz)%nat.
Proof.
  unfold SkipLine; destruct sz as [|c r]; simpl; [discriminate|].
  intros -> -> ->; simpl.
  set (q := fun c0 => negb (is_char c0 13 || is_char c0 10 || is_char c0 0)).
  pose proof (skip_while_length q r).
  pose proof (skip_while_length (fun c0 => is_char c0 13 || is_char c0 10)
                (skip_while q r)).
  lia.
Qed.

Lemma SkipSpacesAndLineEnd_stop (sz : string) :
  let out := snd (SkipSpacesAndLineEnd sz) in
  is_char (peek out) 13 = false /\ is_char (peek out) 10 = false.
Proof.
  unfold SkipSpacesAndLineEnd; simpl.
  induction sz as [|c r IH]; simpl; [split; reflexivity|].
  destruct (IsSpace c || is_char c 13 || is_char c 10) eqn:E; [exact IH|].
  simpl. apply orb_false_elim in E as [E E2]. apply orb_false_elim in E as [_ E1].
  now split.
Qed.

(** The main loop is the fold of [GcodeCommand] over the commands read. *)
Lemma ReadGcodeFile_loop_commands (fuel : nat) (self : GcodeImporter)
    (b : Builder) (sz : string) :
  ReadGcodeFile_loop fuel self b sz = run_commands (self, b) (commands_of fuel sz).
Proof.
  revert self b sz; induction fuel as [|fuel IH]; intros self b sz;
    cbn [ReadGcodeFile_loop commands_of]; [reflexivity|].
  destruct (SkipSpacesAndLineEnd sz) as [more sz1].
  destruct more; [|reflexivity].
  destruct (is_G sz1); [|apply IH].
  unfold ReadGcodeMove.
  destruct (strtoul10 (next sz1)) as [u sz2].
  destruct (ReadGcodeLine sz2) as [v sz3].
  unfold run_commands; cbn [fold_left].
  unfold GcodeCommand at 2; cbn [fst snd].
  destruct (ReadGcodeMove_switch self (to_int u) v (m_pos self)) as [[self1 pos1] move].
  destruct (on_move self1 b pos1 move) as [self2 b2] eqn:E.
  rewrite IH. reflexivity.
Qed.

(** With at least as many rounds as characters, more rounds read no more
    commands: the loop has reached the end of the buffer. *)
Lemma commands_of_fuel (f1 f2 : nat) (sz : string) :
  (String.length sz <= f1)%nat -> (String.length sz <= f2)%nat ->
  commands_of f1 sz = commands_of f2 sz.
Proof.
  revert f2 sz; induction f1 as [|f1 IH]; intros f2 sz L1 L2.
  - destruct sz; [|simpl in L1; lia]. destruct f2; reflexivity.
  - destruct f2 as [|f2].
    { destruct sz; [reflexivity | simpl in L2; lia]. }
    cbn [commands_of].
    pose proof (SkipSpacesAndLineEnd_length sz) as H1.
    pose proof (SkipSpacesAndLineEnd_stop sz) as [H13 H10].
    unfold SkipSpacesAndLineEnd in *; cbn [fst snd] in *.
    set (sz1 := skip_while _ sz) in *.
    destruct (is_char (peek sz1) 0) eqn:E0; cbn [negb]; [reflexivity|].
    destruct (is_G sz1).
    + pose proof (next_length_lt sz1 E0) as H2.
      pose proof (strtoul10_length (next sz1)) as H3.
      destruct (strtoul10 (next sz1)) as [u sz2]; simpl in H3.
      pose proof (ReadGcodeLine_length sz2) as H4.
      destruct (ReadGcodeLine sz2) as [v sz3]; simpl in H4.
      f_equal. apply IH; lia.
    + pose proof (SkipLine_length_lt sz1 E0 H13 H10). apply IH; lia.
Qed.

Lemma ReadGcodeFile_loop_fuel (fuel : nat) (self : GcodeImporter) (b : Builder)
    (sz : string) :
  (String.length sz <= fuel)%nat ->
  ReadGcodeFile_loop fuel self b sz
  = ReadGcodeFile_loop (String.length sz) self b sz.
Proof.
  intros L. rewrite !ReadGcodeFile_loop_commands.
  f_equal. apply commands_of_fuel; lia.
Qed.

(** [ReadGcodeFile] is [ReadGcodeCommands] on the commands of the buffer. *)
Lemma ReadGcodeFile_commands (self : GcodeImporter) (sz : string) :
  snd (ReadGcodeFile self sz)
  = ReadGcodeCommands self (commands_of (String.length sz) sz).
Proof.
  unfold ReadGcodeFile, ReadGcodeCommands, finish.
  rewrite ReadGcodeFile_loop_commands.
  destruct (run_commands _ _) as [self1 b1]; reflexivity.
Qed.

(** ** The motion state machine: [ReadGcodeMove] *)

Lemma linear_code_cases (g : Z) :
  linear_code g = true -> g = 0 \/ g = 1 \/ g = 7.
Proof.
  unfold linear_code; intros H.
  apply orb_true_iff in H as [H|H]; [apply orb_true_iff in H as [H|H]|];
    apply Z.eqb_eq in H; auto.
Qed.

(** What [ReadGcodeMove] does for the codes 0, 1 and 7. *)
Lemma ReadGcodeMove_switch_linear (self : GcodeImporter) (g : Z) (v : GcodeLine)
    (pos : aiVector3D) :
  linear_code g = true ->
  ReadGcodeMove_switch self g v pos
  = (self,
     if ((g =? 0) || (g =? 1)) && m_absolute self
     then absolute_move self v else relative_move self v,
     classify v).
Proof.
  intros H; apply linear_code_cases in H as [-> | [-> | ->]];
    unfold ReadGcodeMove_switch; simpl; destruct (m_absolute self); reflexivity.
Qed.

Lemma GetE_positive (v : GcodeLine) :
  rgtb (GetE v rzero) rzero = true <-> exists q, e v = Fin q /\ (0 < q)%Q.
Proof.
  unfold GetE, HasE. destruct (e v) as [|q]; simpl.
  - split; [discriminate | intros [q [H _]]; discriminate].
  - rewrite negb_true_iff. split.
    + intros H. exists q; split; [reflexivity|].
      apply Qnot_le_lt. intros L. apply Qle_bool_iff in L. congruence.
    + intros [q' [H L]]. injection H as <-.
      destruct (Qle_bool q 0) eqn:B; [|reflexivity].
      apply Qle_bool_iff in B. exfalso. exact (Qlt_not_le _ _ L B).
Qed.

Lemma absolute_move_absent (self : GcodeImporter) (v : GcodeLine) :
  (HasX v = false -> vx (absolute_move self v) = vx (m_pos self)) /\
  (HasY v = false -> vy (absolute_move self v) = vy (m_pos self)) /\
  (HasZ v = false -> vz (absolute_move self v) = vz (m_pos self)).
Proof.
  unfold absolute_move, GetX, GetY, GetZ; simpl.
  repeat split; intros ->; reflexivity.
Qed.

Lemma relative_move_absent (self : GcodeImporter) (v : GcodeLine) :
  (HasX v = false -> vx (relative_move self v) = vx (m_pos self)) /\
  (HasY v = false -> vy (relative_move self v) = vy (m_pos self)) /\
  (HasZ v = false -> vz (relative_move self v) = vz (m_pos self)).
Proof.
  unfold relative_move, GetX, GetY, GetZ; simpl.
  repeat split; intros ->; apply radd_0_r.
Qed.

(** For the codes 0, 1 and 7 an absent axis keeps its coordinate, in
    absolute and in relative mode. *)
Lemma linear_move_absent (self : GcodeImporter) (g : Z) (v : GcodeLine)
    (pos : aiVector3D) :
  linear_code g = true ->
  let pos1 := snd (fst (ReadGcodeMove_switch self g v pos)) in
  (HasX v = false -> vx pos1 = vx (m_pos self)) /\
  (HasY v = false -> vy pos1 = vy (m_pos self)) /\
  (HasZ v = false -> vz pos1 = vz (m_pos self)).
Proof.
  intros H; rewrite (ReadGcodeMove_switch_linear self g v pos H); cbn [fst snd].
  destruct (((g =? 0) || (g =? 1)) && m_absolute self);
    [apply absolute_move_absent | apply relative_move_absent].
Qed.

Lemma vec_eta (p : aiVector3D) : mkVec (vx p) (vy p) (vz p) = p.
Proof. destruct p; reflexivity. Qed.

Lemma linear_move_no_axis (self : GcodeImporter) (g : Z) (v : GcodeLine)
    (pos : aiVector3D) :
  linear_code g = true -> HasX v = false -> HasY v = false -> HasZ v = false ->
  snd (fst (ReadGcodeMove_switch self g v pos)) = m_pos self.
Proof.
  intros H Hx Hy Hz.
  destruct (linear_move_absent self g v pos H) as [Px [Py Pz]].
  rewrite <- (vec_eta (snd (fst _))), (Px Hx), (Py Hy), (Pz Hz).
  apply vec_eta.
Qed.

Lemma set_pos_same (self : GcodeImporter) : set_pos self (m_pos self) = self.
Proof. destruct self; reflexivity. Qed.

(** The x and y axes of a code-92 reset keep their world coordinate. *)
Lemma reset_origin_x_world (self : GcodeImporter) (v : GcodeLine) :
  HasX v = true ->
  vx (m_pos (reset_origin self v)) = x v /\
  vx (m_offset (reset_origin self v)) = rsub (vx (world self)) (x v) /\
  req (vx (world (reset_origin self v))) (vx (world self)).
Proof.
  intros Hx. unfold reset_origin, world, ToAbsolutePosition, GetX.
  rewrite Hx; cbn [negb andb].
  destruct (HasY v), (HasZ v); cbn;
    (repeat split; [apply req_sub_add; unfold HasX in Hx;
                    now destruct (x v)]).
Qed.

Lemma reset_origin_y_world (self : GcodeImporter) (v : GcodeLine) :
  HasY v = true ->
  vy (m_pos (reset_origin self v)) = y v /\
  vy (m_offset (reset_origin self v)) = rsub (vy (world self)) (y v) /\
  req (vy (world (reset_origin self v))) (vy (world self)).
Proof.
  intros Hy. unfold reset_origin, world, ToAbsolutePosition, GetY.
  rewrite Hy; rewrite ?andb_false_r; cbn [negb andb].
  destruct (HasX v), (HasZ v); cbn;
    (repeat split; [apply req_sub_add; unfold HasY in Hy;
                    now destruct (y v)]).
Qed.

Lemma ReadGcodeMove_switch_92 (self : GcodeImporter) (v : GcodeLine)
    (pos : aiVector3D) :
  ReadGcodeMove_switch self 92 v pos = (reset_origin self v, pos, GcodeMove_None).
Proof. reflexivity. Qed.

Lemma GcodeCommand_92 (self : GcodeImporter) (b : Builder) (v : GcodeLine) :
  GcodeCommand (self, b) (92, v)
  = (set_pos (reset_origin self v) (m_pos self), b).
Proof. reflexivity. Qed.

(** C1 (code-92 reset with axes present), evaluated where the code departs
    from it.  The head is at logical (1,2,3) with a zero offset, as after the
    line [G1 X1 Y2 Z3], and the line is [G92 Z7].  The reset sets the logical
    z to 7 but computes the z offset from the y coordinate of the position:
    the offset becomes 3 - 2 = 1 where world-before minus new-logical is
    3 - 7 = -4, and the world z moves from 3 to 8.  Parsing the two lines
    from the default importer ends with the offset (0,0,1). *)
Theorem C1_reset_z_offset_uses_y :
  let self := mkImporter true (vecZ 1 2 3) vzero in
  let v := mkLine NaN NaN (rofZ 7) NaN in
  let self1 := fst (fst (ReadGcodeMove_switch self 92 v (m_pos self))) in
  vz (m_pos self1) = rofZ 7 /\
  vz (m_offset self1) = rofZ 1 /\
  rsub (vz (world self)) (vz (m_pos self1)) = rofZ (-4) /\
  vz (world self) = rofZ 3 /\
  vz (world self1) = rofZ 8 /\
  m_offset (fst (ReadGcodeFile GcodeImporter_default
                   ("G1 X1 Y2 Z3" ++ LF ++ "G92 Z7")%string))
  = vecZ 0 0 1.
Proof. vm_compute. repeat split. Qed.

(** What the call [ReadGcodeMove] does on a code-92 line with no field:
    it folds the logical position into the offset and zeroes the position,
    which leaves offset + position as it was.  (The main loop then assigns
    [m_pos = pos], see [GcodeCommand_92].) *)
Lemma reset_origin_without_fields (self : GcodeImporter) (v : GcodeLine) :
  HasX v = false -> HasY v = false -> HasZ v = false -> HasE v = false ->
  reset_origin self v
  = mkImporter (m_absolute self) vzero (vadd (m_offset self) (m_pos self))
  /\ world (reset_origin self v) = world self.
Proof.
  intros Hx Hy Hz He.
  assert (E : reset_origin self v
              = mkImporter (m_absolute self) vzero (vadd (m_offset self) (m_pos self))).
  { unfold reset_origin. rewrite Hx, Hy, Hz, He. reflexivity. }
  split; [exact E|]. rewrite E.
  unfold world, ToAbsolutePosition; cbn [m_offset m_pos]. apply vadd_0_r.
Qed.

(** C5 (code-92 reset with no field), evaluated where the code departs from
    it.  The head is at logical (2,0,0) in relative mode with a zero offset,
    as after the lines [G91], [G1 X2]; the world position is (2,0,0).  The
    call [ReadGcodeMove] on [G92] folds the position into the offset and
    zeroes the position, but the main loop then assigns the old position
    back: after the line the position is (2,0,0), not zero, the offset is
    (2,0,0) and the world position has moved to (4,0,0).  The relative move
    [G1 X5] then ends at world (9,0,0), where it ends at (7,0,0) without the
    reset, and where it would end at (7,0,0) from the importer the call had
    produced. *)
Theorem C5_reset_position_overwritten :
  let self := mkImporter false (vecZ 2 0 0) vzero in
  let move := (1, mkLine (rofZ 5) NaN NaN NaN) in
  let reset := (92, GcodeLine_default) in
  fst (fst (ReadGcodeMove_switch self 92 GcodeLine_default (m_pos self)))
  = mkImporter false vzero (vecZ 2 0 0) /\
  fst (GcodeCommand (self, Builder_empty) reset)
  = mkImporter false (vecZ 2 0 0) (vecZ 2 0 0) /\
  world self = vecZ 2 0 0 /\
  world (fst (GcodeCommand (self, Builder_empty) reset)) = vecZ 4 0 0 /\
  world (fst (run_commands (self, Builder_empty) [move])) = vecZ 7 0 0 /\
  world (fst (run_commands (self, Builder_empty) [reset; move])) = vecZ 9 0 0 /\
  world (next_importer (reset_origin self GcodeLine_default) move) = vecZ 7 0 0 /\
  world (fst (ReadGcodeFile GcodeImporter_default
                ("G91" ++ LF ++ "G1 X2" ++ LF ++ "G1 X5")%string)) = vecZ 7 0 0 /\
  world (fst (ReadGcodeFile GcodeImporter_default
                ("G91" ++ LF ++ "G1 X2" ++ LF ++ "G92" ++ LF ++ "G1 X5")%string))
  = vecZ 9 0 0.
Proof. vm_compute. repeat split. Qed.

(** C6.  Under the codes 0, 1 and 7 the move is an Extrusion (deposition)
    exactly when e is present and strictly positive; otherwise it is a Travel
    exactly when one of x, y, z is present; otherwise it is None.  Under code
    92 the move is always None, whatever fields are present. *)
Theorem C6_classification (self : GcodeImporter) (g : Z) (v : GcodeLine)
    (pos : aiVector3D) :
  linear_code g = true ->
  let move := snd (ReadGcodeMove_switch self g v pos) in
  let deposits := exists q, e v = Fin q /\ (0 < q)%Q in
  let has_axis := HasX v = true \/ HasY v = true \/ HasZ v = true in
  (move = Extrusion <-> deposits) /\
  (move = Travel <-> ~ deposits /\ has_axis) /\
  (move = GcodeMove_None <-> ~ deposits /\ ~ has_axis) /\
  snd (ReadGcodeMove_switch self 92 v pos) = GcodeMove_None.
Proof.
  intros H; cbv zeta.
  rewrite (ReadGcodeMove_switch_linear self g v pos H); cbn [snd].
  pose proof (GetE_positive v) as HE.
  unfold classify.
  destruct (rgtb (GetE v rzero) rzero).
  - assert (D : exists q, e v = Fin q /\ (0 < q)%Q) by (apply HE; reflexivity).
    repeat split; try discriminate; try tauto.
  - assert (D : ~ exists q, e v = Fin q /\ (0 < q)%Q).
    { intros D; apply HE in D; discriminate. }
    destruct (HasX v), (HasY v), (HasZ v); cbn [orb];
      repeat split; try discriminate; try tauto; intuition discriminate.
Qed.

Lemma C6_classification_witness :
  snd (ReadGcodeMove_switch GcodeImporter_default 1
         (mkLine (rofZ 5) NaN NaN (rofZ 1)) vzero) = Extrusion
  <-> exists q, e (mkLine (rofZ 5) NaN NaN (rofZ 1)) = Fin q /\ (0 < q)%Q.
Proof.
  exact (proj1 (C6_classification GcodeImporter_default 1
                  (mkLine (rofZ 5) NaN NaN (rofZ 1)) vzero eq_refl)).
Defined.

(** C8.  Code 90 (code 91) sets [m_absolute] to true (false), returns None
    and leaves the position and the offset alone; the round of the main loop
    that reads it leaves the meshes, the index buffer and the point buffer as
    they were.  More generally a round whose move is None never touches
    them: only Travel and Extrusion do. *)
Theorem C8_mode_switch (self : GcodeImporter) (b : Builder) (v : GcodeLine)
    (pos : aiVector3D) :
  ReadGcodeMove_switch self 90 v pos = (set_absolute self true, pos, GcodeMove_None) /\
  ReadGcodeMove_switch self 91 v pos = (set_absolute self false, pos, GcodeMove_None) /\
  GcodeCommand (self, b) (90, v)
  = (mkImporter true (m_pos self) (m_offset self), b) /\
  GcodeCommand (self, b) (91, v)
  = (mkImporter false (m_pos self) (m_offset self), b) /\
  (forall g : Z,
      move_of self (g, v) = GcodeMove_None ->
      snd (GcodeCommand (self, b) (g, v)) = b).
Proof.
  repeat split.
  intros g. unfold move_of, GcodeCommand; cbn [fst snd].
  destruct (ReadGcodeMove_switch self g v (m_pos self)) as [[self1 pos1] move].
  cbn [snd]. intros ->. reflexivity.
Qed.

Lemma C8_mode_switch_witness :
  snd (GcodeCommand (GcodeImporter_default, mkBuilder [] [0; 1]%nat [vzero; vzero])
         (91, mkLine (rofZ 4) NaN NaN (rofZ 1)))
  = mkBuilder [] [0; 1]%nat [vzero; vzero].
Proof.
  exact (proj2 (proj2 (proj2 (proj2
           (C8_mode_switch GcodeImporter_default
              (mkBuilder [] [0; 1]%nat [vzero; vzero])
              (mkLine (rofZ 4) NaN NaN (rofZ 1)) vzero))))
           91 eq_refl).
Defined.

(** C9.  A code-92 line whose only present field is e changes neither the
    logical position nor the offset: [ReadGcodeMove] returns the importer it
    was given, and so does the round of the main loop. *)
Theorem C9_reset_with_only_e (self : GcodeImporter) (b : Builder)
    (v : GcodeLine) (pos : aiVector3D) :
  HasE v = true -> HasX v = false -> HasY v = false -> HasZ v = false ->
  ReadGcodeMove_switch self 92 v pos = (self, pos, GcodeMove_None) /\
  GcodeCommand (self, b) (92, v) = (self, b).
Proof.
  intros He Hx Hy Hz.
  assert (E : reset_origin self v = self).
  { unfold reset_origin. rewrite Hx, Hy, Hz, He. reflexivity. }
  rewrite ReadGcodeMove_switch_92, GcodeCommand_92, E.
  split; [reflexivity|]. now rewrite set_pos_same.
Qed.

Lemma C9_reset_with_only_e_witness :
  GcodeCommand (mkImporter false (vecZ 1 2 3) (vecZ 4 5 6), Builder_empty)
    (92, mkLine NaN NaN NaN (rofZ 0))
  = (mkImporter false (vecZ 1 2 3) (vecZ 4 5 6), Builder_empty).
Proof.
  exact (proj2 (C9_reset_with_only_e
                  (mkImporter false (vecZ 1 2 3) (vecZ 4 5 6)) Builder_empty
                  (mkLine NaN NaN NaN (rofZ 0)) vzero
                  eq_refl eq_refl eq_refl eq_refl)).
Defined.

(** C10.  A code 0, 1 or 7 line with e > 0 and none of x, y, z is an
    Extrusion; the round of the main loop appends the unchanged position
    twice to the point buffer and the pair of their two indices to the index
    buffer (a segment of length zero), finalises nothing and leaves the
    importer, the head position included, as it was. *)
Theorem C10_extrusion_without_axes (self : GcodeImporter) (b : Builder)
    (g : Z) (v : GcodeLine) :
  linear_code g = true ->
  HasX v = false -> HasY v = false -> HasZ v = false ->
  (exists q, e v = Fin q /\ (0 < q)%Q) ->
  move_of self (g, v) = Extrusion /\
  GcodeCommand (self, b) (g, v)
  = (self,
     mkBuilder (meshes b)
       (indices b ++ [List.length (positions b); S (List.length (positions b))])
       (positions b ++ [m_pos self; m_pos self])).
Proof.
  intros H Hx Hy Hz He.
  pose proof (linear_move_no_axis self g v (m_pos self) H Hx Hy Hz) as P.
  unfold move_of, GcodeCommand; cbn [fst snd].
  rewrite (ReadGcodeMove_switch_linear self g v (m_pos self) H) in *.
  cbn [fst snd] in *. rewrite P.
  assert (C : classify v = Extrusion).
  { unfold classify. apply GetE_positive in He. now rewrite He. }
  rewrite C. split; [reflexivity|].
  unfold on_move. rewrite set_pos_same.
  rewrite length_app; cbn [List.length].
  replace (Nat.ltb 1 (List.length (positions b) + 2)) with true
    by (symmetry; apply Nat.ltb_lt; lia).
  repeat f_equal; lia.
Qed.

Lemma C10_extrusion_without_axes_witness :
  GcodeCommand (mkImporter false (vecZ 1 2 3) vzero, Builder_empty)
    (7, mkLine NaN NaN NaN (rofZ 2))
  = (mkImporter false (vecZ 1 2 3) vzero,
     mkBuilder [] [0; 1]%nat [vecZ 1 2 3; vecZ 1 2 3]).
Proof.
  refine (proj2 (C10_extrusion_without_axes
                   (mkImporter false (vecZ 1 2 3) vzero) Builder_empty
                   7 (mkLine NaN NaN NaN (rofZ 2))
                   eq_refl eq_refl eq_refl eq_refl _)).
  exists (inject_Z 2); split; reflexivity.
Defined.

(** ** The tokenizer: [ReadGcodeLine] *)

Lemma fast_atof_malformed (rest : string) :
  malformed rest = true -> fast_atof rest = (NaN, rest).
Proof.
  unfold malformed, fast_atof; cbv zeta.
  rewrite negb_true_iff; intros ->; reflexivity.
Qed.

(** One round of [ReadGcodeLine] on a character that is neither blank nor a
    line end: the dispatch on the tag. *)
Lemma ReadGcodeLine_loop_tag (fuel : nat) (v : GcodeLine) (c : ascii)
    (rest : string) :
  IsSpace c = false -> IsLineEnd c = false ->
  ReadGcodeLine_loop (S fuel) v (String c rest)
  = if is_char (ToUpper c) 88 then
      let (r, sz3) := fast_atof rest in ReadGcodeLine_loop fuel (set_x v r) sz3
    else if is_char (ToUpper c) 89 then
      let (r, sz3) := fast_atof rest in ReadGcodeLine_loop fuel (set_y v r) sz3
    else if is_char (ToUpper c) 90 then
      let (r, sz3) := fast_atof rest in ReadGcodeLine_loop fuel (set_z v r) sz3
    else if is_char (ToUpper c) 69 then
      let (r, sz3) := fast_atof rest in ReadGcodeLine_loop fuel (set_e v r) sz3
    else if is_char (ToUpper c) 59 then (v, rest)
    else ReadGcodeLine_loop fuel v (SkipValue rest).
Proof.
  intros Hs Hl. cbn [ReadGcodeLine_loop]. unfold SkipSpaces.
  cbn [skip_while]. rewrite Hs. cbn [peek next]. rewrite Hl. reflexivity.
Qed.

Ltac eval_tag :=
  repeat
    match goal with
    | |- context [is_char (ToUpper ?c) ?n] =>
        let b := eval vm_compute in (is_char (ToUpper c) n) in
        change (is_char (ToUpper c) n) with b; cbv iota
    end.

Ltac reads_absent_tac H :=
  intros fuel v;
  rewrite ReadGcodeLine_loop_tag by reflexivity;
  eval_tag; rewrite (fast_atof_malformed _ H); reflexivity.

(** C7.  Where the literal after an axis tag is malformed (no digits),
    [fast_atof] yields NaN and [ReadGcodeLine] stores it in the field, so the
    axis is absent ([HasX] is false) and the scan of the line goes on; a
    code 0, 1 or 7 move with an absent axis keeps the prior coordinate of
    that axis, in absolute and in relative mode.  On the line [G1 XABC E1],
    read with the head at (2,3,4), only e is present, the move is an
    Extrusion and the head stays at x = 2. *)
Theorem C7_malformed_axis_is_absent (rest : string) :
  malformed rest = true ->
  fast_atof rest = (NaN, rest) /\
  (reads_absent "X" set_x rest /\ reads_absent "x" set_x rest /\
   reads_absent "Y" set_y rest /\ reads_absent "y" set_y rest /\
   reads_absent "Z" set_z rest /\ reads_absent "z" set_z rest) /\
  (forall v, HasX (set_x v NaN) = false /\ HasY (set_y v NaN) = false
             /\ HasZ (set_z v NaN) = false) /\
  (forall self g v pos,
      linear_code g = true ->
      let pos1 := snd (fst (ReadGcodeMove_switch self g v pos)) in
      (HasX v = false -> vx pos1 = vx (m_pos self)) /\
      (HasY v = false -> vy pos1 = vy (m_pos self)) /\
      (HasZ v = false -> vz pos1 = vz (m_pos self))) /\
  ReadGcodeLine " XABC E1" = (mkLine NaN NaN NaN (rofZ 1), EmptyString) /\
  ReadGcodeFile (mkImporter true (vecZ 2 3 4) vzero) "G1 XABC E1"
  = (mkImporter true (vecZ 2 3 4) vzero,
     [mkMesh [vecZ 2 3 4; vecZ 2 3 4] [mkFace [0; 1]%nat]]).
Proof.
  intros H. split; [exact (fast_atof_malformed rest H)|].
  split; [repeat split; reads_absent_tac H|].
  split; [intros v; repeat split|].
  split; [intros self g v pos Hg; exact (linear_move_absent self g v pos Hg)|].
  split; vm_compute; reflexivity.
Qed.

Lemma C7_malformed_axis_is_absent_witness :
  fast_atof "ABC E1" = (NaN, "ABC E1"%string).
Proof.
  exact (proj1 (C7_malformed_axis_is_absent "ABC E1" eq_refl)).
Defined.

(** ** The stroke builder: [ReadGcodeFile] and [CreateMesh] *)

Lemma GcodeCommand_eq (self : GcodeImporter) (b : Builder) (c : Z * GcodeLine) :
  GcodeCommand (self, b) c
  = on_move (fst (fst (ReadGcodeMove_switch self (fst c) (snd c) (m_pos self))))
            b
            (snd (fst (ReadGcodeMove_switch self (fst c) (snd c) (m_pos self))))
            (move_of self c).
Proof.
  unfold GcodeCommand, move_of; cbn [fst snd].
  now destruct (ReadGcodeMove_switch _ _ _ _) as [[self1 pos1] move].
Qed.

Lemma move_of_eq (self : GcodeImporter) (c : Z * GcodeLine) :
  move_of self c
  = if linear_code (fst c) then classify (snd c) else GcodeMove_None.
Proof.
  destruct c as [g v]; cbn [fst snd].
  destruct (linear_code g) eqn:L.
  - unfold move_of; cbn [fst snd].
    now rewrite (ReadGcodeMove_switch_linear self g v _ L).
  - unfold move_of, ReadGcodeMove_switch, linear_code in *; cbn [fst snd].
    apply orb_false_elim in L as [L ->]. rewrite L.
    now destruct (g =? 90), (g =? 91), (g =? 92).
Qed.

Lemma move_of_deposition (self : GcodeImporter) (c : Z * GcodeLine) :
  move_of self c = Extrusion <-> is_deposition c = true.
Proof.
  rewrite move_of_eq. unfold is_deposition, classify.
  destruct (linear_code (fst c)); cbn [andb]; [|split; discriminate].
  destruct (rgtb (GetE (snd c) rzero) rzero); [tauto|].
  destruct (HasX (snd c) || HasY (snd c) || HasZ (snd c)); split; discriminate.
Qed.

Lemma move_of_travel (self : GcodeImporter) (c : Z * GcodeLine) :
  move_of self c = Travel <-> is_travel c = true.
Proof.
  rewrite move_of_eq. unfold is_travel, classify.
  destruct (linear_code (fst c)); cbn [andb]; [|split; discriminate].
  destruct (rgtb (GetE (snd c) rzero) rzero); cbn [negb andb];
    [split; discriminate|].
  destruct (HasX (snd c) || HasY (snd c) || HasZ (snd c)); [tauto|].
  split; discriminate.
Qed.

(** A deposition or travel line has a linear code, and [ReadGcodeMove]
    leaves the members of the importer alone on such a line. *)
Lemma linear_importer (self : GcodeImporter) (c : Z * GcodeLine) :
  linear_code (fst c) = true ->
  fst (fst (ReadGcodeMove_switch self (fst c) (snd c) (m_pos self))) = self.
Proof.
  intros L. now rewrite (ReadGcodeMove_switch_linear self _ _ _ L).
Qed.

Lemma move_linear (self : GcodeImporter) (c : Z * GcodeLine) :
  move_of self c <> GcodeMove_None -> linear_code (fst c) = true.
Proof.
  rewrite move_of_eq. destruct (linear_code (fst c)); congruence.
Qed.

Lemma next_importer_eq (self : GcodeImporter) (b : Builder) (c : Z * GcodeLine) :
  fst (GcodeCommand (self, b) c) = next_importer self c.
Proof.
  unfold next_importer. rewrite !GcodeCommand_eq. reflexivity.
Qed.

Lemma pair_faces_length (n p : nat) : List.length (pair_faces n p) = n.
Proof.
  revert p; induction n as [|n IH]; intros p; simpl; [reflexivity|].
  now rewrite IH.
Qed.

Lemma pair_faces_indices (n p : nat) :
  flat_map mIndices (pair_faces n p) = seq p (2 * n).
Proof.
  revert p; induction n as [|n IH]; intros p; [reflexivity|].
  replace (2 * S n)%nat with (S (S (2 * n))) by lia.
  cbn [pair_faces flat_map mIndices seq app]. rewrite IH.
  repeat f_equal; lia.
Qed.

Lemma pair_faces_nth (n p i : nat) :
  (i < n)%nat ->
  nth_error (pair_faces n p) i = Some (mkFace [p + 2 * i; p + 2 * i + 1]%nat).
Proof.
  revert p i; induction n as [|n IH]; intros p i H; [lia|].
  destruct i as [|i]; cbn [pair_faces nth_error].
  - replace (p + 2 * 0)%nat with p by lia. reflexivity.
  - rewrite IH by lia.
    replace (p + 2 + 2 * i)%nat with (p + 2 * S i)%nat by lia. reflexivity.
Qed.

(** On an index buffer that counts its points the face loop of [CreateMesh]
    yields the disjoint pairs. *)
Lemma make_faces_seq (n p len : nat) :
  (p + 2 * n <= len)%nat -> make_faces n p (seq 0 len) = pair_faces n p.
Proof.
  revert p; induction n as [|n IH]; intros p H; [reflexivity|].
  cbn [make_faces pair_faces].
  rewrite !seq_nth by lia. rewrite IH by lia. reflexivity.
Qed.

Lemma CreateMesh_wf (self : GcodeImporter) (b : Builder) (p : aiVector3D)
    (ps : list aiVector3D) (k : nat) :
  indices b = seq 0 (List.length (positions b)) ->
  positions b = p :: ps -> List.length (positions b) = (2 * k)%nat ->
  CreateMesh self b
  = mkBuilder
      (meshes b ++ [mkMesh (map (ToAbsolutePosition self) (positions b))
                           (pair_faces k 0)])
      [] [].
Proof.
  intros Hi Hp Hk. unfold CreateMesh. rewrite Hi, Hp.
  rewrite <- Hp, length_seq, Hk.
  replace (Nat.div (2 * k) 2) with k
    by (symmetry; rewrite Nat.mul_comm; apply Nat.div_mul; lia).
  rewrite make_faces_seq by lia. reflexivity.
Qed.

Lemma CreateMesh_empty (self : GcodeImporter) (b : Builder) :
  positions b = [] -> CreateMesh self b = b.
Proof. unfold CreateMesh; now intros ->. Qed.

Lemma mesh_wf_pairs (vs : list aiVector3D) (k : nat) :
  List.length vs = (2 * k)%nat -> mesh_wf (mkMesh vs (pair_faces k 0)).
Proof.
  intros H. unfold mesh_wf, mesh_indices, mNumVertices, mNumFaces; cbn [mVertices mFaces].
  rewrite pair_faces_indices, pair_faces_length, H. split; reflexivity.
Qed.

Lemma builder_wf_empty (ms : list aiMesh) : builder_wf (mkBuilder ms [] []).
Proof. split; [reflexivity | exists O; reflexivity]. Qed.

Lemma CreateMesh_inv (self : GcodeImporter) (b : Builder) :
  builder_wf b -> Forall mesh_wf (meshes b) ->
  builder_wf (CreateMesh self b) /\ Forall mesh_wf (meshes (CreateMesh self b)).
Proof.
  intros [Hi [k Hk]] Hm.
  destruct (positions b) as [|p ps] eqn:Hp.
  - rewrite CreateMesh_empty by assumption.
    split; [split; [now rewrite Hp in * | exists k; now rewrite Hp in *] | assumption].
  - rewrite <- Hp in Hi, Hk.
    rewrite (CreateMesh_wf self b p ps k Hi Hp Hk); cbn [meshes].
    split; [apply builder_wf_empty|].
    apply Forall_app; split; [assumption|].
    constructor; [|constructor].
    apply mesh_wf_pairs. now rewrite length_map.
Qed.

Lemma extrusion_builder (self : GcodeImporter) (b : Builder) (pos : aiVector3D) :
  on_move self b pos Extrusion
  = (set_pos self pos,
     mkBuilder (meshes b)
       (indices b ++ [List.length (positions b); S (List.length (positions b))])
       (positions b ++ [m_pos self; pos])).
Proof.
  unfold on_move. rewrite length_app; cbn [List.length].
  replace (Nat.ltb 1 (List.length (positions b) + 2)) with true
    by (symmetry; apply Nat.ltb_lt; lia).
  repeat f_equal; lia.
Qed.

Lemma on_move_inv (self : GcodeImporter) (b : Builder) (pos : aiVector3D)
    (move : GcodeMove) :
  builder_wf b -> Forall mesh_wf (meshes b) ->
  builder_wf (snd (on_move self b pos move))
  /\ Forall mesh_wf (meshes (snd (on_move self b pos move))).
Proof.
  intros W M. destruct move.
  - now split.
  - cbn [on_move snd]. now apply CreateMesh_inv.
  - rewrite extrusion_builder; cbn [snd meshes]. split; [|assumption].
    destruct W as [Hi [k Hk]]. split; cbn [indices positions].
    + rewrite Hi, length_app; cbn [List.length].
      replace (List.length (positions b) + 2)%nat
        with (S (S (List.length (positions b)))) by lia.
      rewrite !seq_S, <- app_assoc. reflexivity.
    + exists (S k). rewrite length_app; cbn [List.length]. lia.
Qed.

Lemma run_commands_inv (cs : list (Z * GcodeLine)) (self : GcodeImporter)
    (b : Builder) :
  builder_wf b -> Forall mesh_wf (meshes b) ->
  builder_wf (snd (run_commands (self, b) cs))
  /\ Forall mesh_wf (meshes (snd (run_commands (self, b) cs))).
Proof.
  revert self b; induction cs as [|c cs IH]; intros self b W M; [now split|].
  unfold run_commands; cbn [fold_left].
  rewrite GcodeCommand_eq.
  set (r := ReadGcodeMove_switch self (fst c) (snd c) (m_pos self)).
  destruct (on_move_inv (fst (fst r)) b (snd (fst r)) (move_of self c) W M)
    as [W1 M1].
  destruct (on_move (fst (fst r)) b (snd (fst r)) (move_of self c))
    as [self1 b1].
  exact (IH self1 b1 W1 M1).
Qed.

(** Between two travels the buffers only grow: two points per deposition. *)
Lemma run_no_travel (cs : list (Z * GcodeLine)) (self : GcodeImporter)
    (b : Builder) :
  Forall (fun c => is_travel c = false) cs ->
  meshes (snd (run_commands (self, b) cs)) = meshes b
  /\ List.length (positions (snd (run_commands (self, b) cs)))
     = (List.length (positions b) + 2 * depositions cs)%nat.
Proof.
  revert self b; induction cs as [|c cs IH]; intros self b F.
  - cbn. split; [reflexivity | unfold depositions; simpl; lia].
  - inversion F as [|c' cs' Hc Hcs]; subst.
    unfold run_commands; cbn [fold_left]. rewrite GcodeCommand_eq.
    set (r := ReadGcodeMove_switch self (fst c) (snd c) (m_pos self)).
    unfold depositions; cbn [filter].
    destruct (move_of self c) eqn:M.
    + assert (D : is_deposition c = false).
      { destruct (is_deposition c) eqn:D; [|reflexivity].
        apply move_of_deposition with (self := self) in D. congruence. }
      rewrite D. cbn [on_move]. exact (IH _ b Hcs).
    + apply move_of_travel in M. congruence.
    + pose proof (proj1 (move_of_deposition self c) M) as D. rewrite D.
      rewrite extrusion_builder.
      destruct (IH (set_pos (fst (fst r)) (snd (fst r)))
                  (mkBuilder (meshes b)
                     (indices b ++ [List.length (positions b);
                                    S (List.length (positions b))])
                     (positions b ++ [m_pos (fst (fst r)); snd (fst r)]))
                  Hcs) as [I1 I2].
      unfold run_commands in I1, I2. rewrite I1, I2; cbn [meshes positions].
      rewrite length_app; cbn [List.length]. unfold depositions. split; [reflexivity | lia].
Qed.

Lemma ReadGcodeCommands_wf (self : GcodeImporter) (cs : list (Z * GcodeLine)) :
  Forall mesh_wf (ReadGcodeCommands self cs).
Proof.
  unfold ReadGcodeCommands, finish.
  destruct (run_commands_inv cs self Builder_empty (builder_wf_empty [])
              (Forall_nil _)) as [W M].
  exact (proj2 (CreateMesh_inv _ _ W M)).
Qed.

(** A run without travel and with N >= 1 depositions gives one mesh:
    2N vertices and the N faces (0,1), (2,3), ... *)
Lemma deposition_run_one_mesh (self : GcodeImporter) (cs : list (Z * GcodeLine)) :
  Forall (fun c => is_travel c = false) cs -> (1 <= depositions cs)%nat ->
  exists vs : list aiVector3D,
    ReadGcodeCommands self cs = [mkMesh vs (pair_faces (depositions cs) 0)]
    /\ List.length vs = (2 * depositions cs)%nat.
Proof.
  intros F N.
  destruct (run_no_travel cs self Builder_empty F) as [Hm Hl].
  destruct (run_commands_inv cs self Builder_empty (builder_wf_empty [])
              (Forall_nil _)) as [[Hi _] _].
  unfold ReadGcodeCommands, finish.
  set (st := run_commands (self, Builder_empty) cs) in *.
  cbn [Builder_empty positions meshes List.length Nat.add] in Hm, Hl.
  destruct (positions (snd st)) as [|p ps] eqn:Hp; [cbn in Hl; lia|].
  rewrite <- Hp in Hl, Hi.
  rewrite (CreateMesh_wf (fst st) (snd st) p ps (depositions cs) Hi Hp Hl).
  cbn [meshes]. rewrite Hm; cbn [app].
  eexists; split; [reflexivity|]. now rewrite length_map.
Qed.

(** The meshes already finalised are a frame: the loop only appends. *)
Lemma CreateMesh_frame (self : GcodeImporter) (ms0 : list aiMesh) (b : Builder) :
  CreateMesh self (mkBuilder (ms0 ++ meshes b) (indices b) (positions b))
  = mkBuilder (ms0 ++ meshes (CreateMesh self b))
              (indices (CreateMesh self b)) (positions (CreateMesh self b)).
Proof.
  unfold CreateMesh; cbn [positions meshes indices].
  destruct (positions b) eqn:E; cbn [meshes indices positions].
  - now rewrite E.
  - now rewrite app_assoc.
Qed.

Lemma on_move_frame (self : GcodeImporter) (ms0 : list aiMesh) (b : Builder)
    (pos : aiVector3D) (move : GcodeMove) :
  on_move self (mkBuilder (ms0 ++ meshes b) (indices b) (positions b)) pos move
  = (fst (on_move self b pos move),
     mkBuilder (ms0 ++ meshes (snd (on_move self b pos move)))
               (indices (snd (on_move self b pos move)))
               (positions (snd (on_move self b pos move)))).
Proof.
  destruct move.
  - reflexivity.
  - unfold on_move; cbn [fst snd]. now rewrite CreateMesh_frame.
  - now rewrite !extrusion_builder.
Qed.

Lemma run_commands_frame (cs : list (Z * GcodeLine)) (self : GcodeImporter)
    (ms0 : list aiMesh) (b : Builder) :
  run_commands (self, mkBuilder (ms0 ++ meshes b) (indices b) (positions b)) cs
  = (fst (run_commands (self, b) cs),
     mkBuilder (ms0 ++ meshes (snd (run_commands (self, b) cs)))
               (indices (snd (run_commands (self, b) cs)))
               (positions (snd (run_commands (self, b) cs)))).
Proof.
  revert self b; induction cs as [|c cs IH]; intros self b; [reflexivity|].
  unfold run_commands; cbn [fold_left].
  rewrite !GcodeCommand_eq, on_move_frame.
  destruct (on_move _ b _ (move_of self c)) as [self1 b1]; cbn [fst snd].
  exact (IH self1 b1).
Qed.

Lemma CreateMesh_flushed (self : GcodeImporter) (b : Builder) :
  builder_wf b ->
  CreateMesh self b = mkBuilder (meshes (CreateMesh self b)) [] [].
Proof.
  intros [Hi _]. unfold CreateMesh.
  destruct (positions b) eqn:E; [|reflexivity].
  destruct b as [ms idx ps]; cbn in *. now subst.
Qed.

(** A travel closes the stroke in progress; what follows starts afresh. *)
Lemma travel_splits (self : GcodeImporter) (A B : list (Z * GcodeLine))
    (t : Z * GcodeLine) :
  is_travel t = true ->
  ReadGcodeCommands self (A ++ t :: B)
  = ReadGcodeCommands self A
    ++ ReadGcodeCommands (fst (run_commands (self, Builder_empty) (A ++ [t]))) B.
Proof.
  intros T. unfold ReadGcodeCommands, finish, run_commands.
  rewrite !fold_left_app; cbn [fold_left].
  destruct (run_commands_inv A self Builder_empty (builder_wf_empty [])
              (Forall_nil _)) as [W _].
  unfold run_commands in W.
  destruct (fold_left GcodeCommand A (self, Builder_empty)) as [sA bA].
  cbn [fst snd] in *.
  assert (L : linear_code (fst t) = true).
  { unfold is_travel in T. apply andb_true_iff in T as [T _].
    now apply andb_true_iff in T as [T _]. }
  rewrite GcodeCommand_eq, (proj2 (move_of_travel sA t) T), (linear_importer sA t L).
  unfold on_move; cbn [fst]. rewrite (CreateMesh_flushed sA bA W).
  set (msA := meshes (CreateMesh sA bA)).
  set (sT := set_pos sA _).
  pose proof (run_commands_frame B sT msA Builder_empty) as Fr.
  unfold run_commands in Fr; cbn [Builder_empty meshes indices positions] in Fr.
  rewrite app_nil_r in Fr. rewrite Fr; cbn [fst snd].
  destruct (fold_left GcodeCommand B (sT, mkBuilder [] [] [])) as [sB bB].
  cbn [fst snd]. now rewrite CreateMesh_frame.
Qed.

(** C2, as stated, fails: the two consecutive deposition moves of the
    input [G1 X1 E1], [G1 X2 E1] (parsed from the default importer) give one
    mesh with 4 points, not 2 + 1, and the index sequence 0,1,2,3, not the
    chained 0,1,1,2; the index sequence is as long as the point sequence,
    not one shorter. *)
Lemma C2_two_depositions_four_points :
  let sz := ("G1 X1 E1" ++ LF ++ "G1 X2 E1")%string in
  let ms := snd (ReadGcodeFile GcodeImporter_default sz) in
  commands_of (String.length sz) sz
  = [(1, mkLine (rofZ 1) NaN NaN (rofZ 1)); (1, mkLine (rofZ 2) NaN NaN (rofZ 1))] /\
  map mNumVertices ms = [4%nat] /\
  map mesh_indices ms = [[0; 1; 2; 3]%nat] /\
  4%nat <> (2 + 1)%nat /\
  [0; 1; 2; 3]%nat <> [0; 1; 1; 2]%nat /\
  map (fun m => List.length (mesh_indices m)) ms
  <> map (fun m => (mNumVertices m - 1)%nat) ms.
Proof. vm_compute. repeat split; discriminate. Qed.

(** C2, amended.  A command sequence without travel that holds N >= 1
    deposition moves yields exactly one mesh, with N faces and 2N points;
    its index sequence is 0, 1, ..., 2N-1, of length 2N, and face i is the
    pair (2i, 2i+1).  For every parse, of a command list or of a text buffer,
    every mesh has an index sequence of length twice its face count, which
    is also its point count. *)
Theorem C2_deposition_run_one_stroke (self : GcodeImporter)
    (cs : list (Z * GcodeLine)) :
  Forall (fun c => is_travel c = false) cs -> (1 <= depositions cs)%nat ->
  let N := depositions cs in
  (exists m : aiMesh,
      ReadGcodeCommands self cs = [m] /\
      mNumFaces m = N /\ mNumVertices m = (2 * N)%nat /\
      mesh_indices m = seq 0 (2 * N) /\
      forall i : nat, (i < N)%nat ->
        nth_error (mFaces m) i = Some (mkFace [2 * i; 2 * i + 1]%nat))
  /\ (forall (self1 : GcodeImporter) (cs1 : list (Z * GcodeLine)),
        Forall (fun m =>
                  List.length (mesh_indices m) = (2 * mNumFaces m)%nat
                  /\ List.length (mesh_indices m) = mNumVertices m)
               (ReadGcodeCommands self1 cs1))
  /\ (forall (self1 : GcodeImporter) (sz : string),
        Forall (fun m =>
                  List.length (mesh_indices m) = (2 * mNumFaces m)%nat
                  /\ List.length (mesh_indices m) = mNumVertices m)
               (snd (ReadGcodeFile self1 sz))).
Proof.
  intros F N1; cbv zeta.
  assert (B : forall self1 cs1,
             Forall (fun m =>
                       List.length (mesh_indices m) = (2 * mNumFaces m)%nat
                       /\ List.length (mesh_indices m) = mNumVertices m)
                    (ReadGcodeCommands self1 cs1)).
  { intros self1 cs1.
    eapply Forall_impl; [|apply ReadGcodeCommands_wf].
    intros m [Hi Hv]. rewrite Hi, length_seq. split; [exact Hv | reflexivity]. }
  split; [|split].
  - destruct (deposition_run_one_mesh self cs F N1) as [vs [E L]].
    exists (mkMesh vs (pair_faces (depositions cs) 0)).
    unfold mNumFaces, mNumVertices, mesh_indices; cbn [mFaces mVertices].
    rewrite pair_faces_length, pair_faces_indices.
    repeat split; try assumption.
    intros i Hi. exact (pair_faces_nth (depositions cs) 0 i Hi).
  - exact B.
  - intros self1 sz. rewrite ReadGcodeFile_commands. apply B.
Qed.

Lemma C2_deposition_run_one_stroke_witness :
  exists m : aiMesh,
    ReadGcodeCommands GcodeImporter_default
      [(1, mkLine (rofZ 1) NaN NaN (rofZ 1)); (90, GcodeLine_default);
       (1, mkLine (rofZ 2) NaN NaN (rofZ 1))] = [m]
    /\ mNumFaces m = 2%nat /\ mNumVertices m = 4%nat
    /\ mesh_indices m = [0; 1; 2; 3]%nat
    /\ forall i : nat, (i < 2)%nat ->
         nth_error (mFaces m) i = Some (mkFace [2 * i; 2 * i + 1]%nat).
Proof.
  refine (proj1 (C2_deposition_run_one_stroke GcodeImporter_default
                   [(1, mkLine (rofZ 1) NaN NaN (rofZ 1)); (90, GcodeLine_default);
                    (1, mkLine (rofZ 2) NaN NaN (rofZ 1))] _ _)).
  - repeat constructor.
  - vm_compute. lia.
Defined.

(** C4, as stated, fails on the scenario: the parse yields two meshes, but
    the first has the four points (0,0,0), (0,0,0), (0,0,0), (10,0,0) and two
    faces, not the two points (0,0,0), (10,0,0) and one face. *)
Lemma C4_scenario_first_stroke_has_four_points :
  let ms := snd (ReadGcodeFile GcodeImporter_default scenario) in
  map mVertices ms
  = [[vecZ 0 0 0; vecZ 0 0 0; vecZ 0 0 0; vecZ 10 0 0];
     [vecZ 10 10 0; vecZ 10 10 0; vecZ 10 10 0; vecZ 20 10 0]] /\
  map mNumFaces ms = [2; 2]%nat /\
  map mVertices ms
  <> [[vecZ 0 0 0; vecZ 10 0 0]; [vecZ 10 10 0; vecZ 20 10 0]] /\
  map mNumFaces ms <> [1; 1]%nat.
Proof. vm_compute. repeat split; discriminate. Qed.

(** C4, amended.  Parsing the scenario from the default importer yields
    exactly two meshes: the first with the points (0,0,0), (0,0,0), (0,0,0),
    (10,0,0) and the faces (0,1), (2,3); the second with the points
    (10,10,0), (10,10,0), (10,10,0), (20,10,0) and the faces (0,1), (2,3).
    In general a travel move between two runs of deposition moves yields two
    separate meshes: the first is the parse of the moves before the travel,
    the second the parse of the moves after it, started from the importer
    the travel left. *)
Theorem C4_travel_splits_strokes (self : GcodeImporter)
    (A B : list (Z * GcodeLine)) (t : Z * GcodeLine) :
  is_travel t = true ->
  Forall (fun c => is_travel c = false) A -> (1 <= depositions A)%nat ->
  Forall (fun c => is_travel c = false) B -> (1 <= depositions B)%nat ->
  snd (ReadGcodeFile GcodeImporter_default scenario)
  = [mkMesh [vecZ 0 0 0; vecZ 0 0 0; vecZ 0 0 0; vecZ 10 0 0]
            [mkFace [0; 1]%nat; mkFace [2; 3]%nat];
     mkMesh [vecZ 10 10 0; vecZ 10 10 0; vecZ 10 10 0; vecZ 20 10 0]
            [mkFace [0; 1]%nat; mkFace [2; 3]%nat]]
  /\
  let self1 := fst (run_commands (self, Builder_empty) (A ++ [t])) in
  ReadGcodeCommands self (A ++ t :: B)
  = ReadGcodeCommands self A ++ ReadGcodeCommands self1 B
  /\ List.length (ReadGcodeCommands self A) = 1%nat
  /\ List.length (ReadGcodeCommands self1 B) = 1%nat
  /\ List.length (ReadGcodeCommands self (A ++ t :: B)) = 2%nat.
Proof.
  intros T FA NA FB NB. split; [vm_compute; reflexivity|]. cbv zeta.
  set (self1 := fst (run_commands (self, Builder_empty) (A ++ [t]))).
  pose proof (travel_splits self A B t T) as S. fold self1 in S.
  destruct (deposition_run_one_mesh self A FA NA) as [va [EA _]].
  destruct (deposition_run_one_mesh self1 B FB NB) as [vb [EB _]].
  rewrite S, EA, EB. repeat split.
Qed.

Lemma C4_travel_splits_strokes_witness :
  List.length
    (ReadGcodeCommands GcodeImporter_default
       ([(1, mkLine (rofZ 0) (rofZ 0) NaN (rofZ 1))]
        ++ (0, mkLine (rofZ 10) (rofZ 10) NaN NaN)
        :: [(1, mkLine (rofZ 20) (rofZ 10) NaN (rofZ 1))])) = 2%nat.
Proof.
  refine (proj2 (proj2 (proj2 (proj2
            (C4_travel_splits_strokes GcodeImporter_default
               [(1, mkLine (rofZ 0) (rofZ 0) NaN (rofZ 1))]
               [(1, mkLine (rofZ 20) (rofZ 10) NaN (rofZ 1))]
               (0, mkLine (rofZ 10) (rofZ 10) NaN NaN)
               eq_refl _ _ _ _))))).
  - repeat constructor.
  - vm_compute. lia.
  - repeat constructor.
  - vm_compute. lia.
Defined.

(** ** Stored points and world positions *)

Lemma offset_kept (self : GcodeImporter) (c : Z * GcodeLine) (pos : aiVector3D) :
  resets_offset c = false ->
  m_offset (fst (fst (ReadGcodeMove_switch self (fst c) (snd c) pos)))
  = m_offset self.
Proof.
  destruct c as [g v]; unfold resets_offset; cbn [fst snd]; intros R.
  unfold ReadGcodeMove_switch.
  destruct ((g =? 0) || (g =? 1)); [now destruct (m_absolute self)|].
  destruct (g =? 7); [reflexivity|].
  destruct (g =? 90); [reflexivity|].
  destruct (g =? 91); [reflexivity|].
  destruct (g =? 92); [|reflexivity].
  cbn [andb] in R. apply orb_false_elim in R as [R He].
  apply orb_false_elim in R as [R Hz]. apply orb_false_elim in R as [Hx Hy].
  apply negb_false_iff in He.
  cbn [fst]. unfold reset_origin. rewrite Hx, Hy, Hz, He. reflexivity.
Qed.

Lemma CreateMesh_same_strokes (o : aiVector3D) (self : GcodeImporter)
    (b : Builder) (sb : StrokeBuilder) :
  m_offset self = o ->
  accumulation sb = map (vadd o) (positions b) ->
  strokes sb = map mVertices (meshes b) ->
  accumulation (spec_finalize sb)
  = map (vadd o) (positions (CreateMesh self b))
  /\ strokes (spec_finalize sb) = map mVertices (meshes (CreateMesh self b)).
Proof.
  intros Ho Ha Hs. unfold spec_finalize, CreateMesh.
  destruct (positions b) as [|p ps] eqn:Hp; rewrite Ha; cbn [map].
  - rewrite Hp. now split.
  - cbn [accumulation strokes positions meshes]. split; [reflexivity|].
    rewrite map_app, Hs; cbn [map mVertices].
    unfold ToAbsolutePosition. now rewrite Ho.
Qed.

Lemma GcodeCommand_same_strokes (o : aiVector3D) (c : Z * GcodeLine)
    (st : GcodeImporter * Builder) (ss : GcodeImporter * StrokeBuilder) :
  resets_offset c = false ->
  same_strokes o st ss -> same_strokes o (GcodeCommand st c) (spec_command ss c).
Proof.
  intros R. destruct st as [self b], ss as [self' sb].
  unfold same_strokes; cbn [fst snd]. intros [-> [Ho [Ha Hs]]].
  pose proof (offset_kept self c (m_pos self) R) as K.
  unfold spec_command, next_importer; cbn [fst snd].
  rewrite !GcodeCommand_eq.
  set (r := ReadGcodeMove_switch self (fst c) (snd c) (m_pos self)) in *.
  destruct (move_of self c) eqn:M.
  - unfold on_move; cbn [fst snd m_offset set_pos].
    repeat split; try assumption. congruence.
  - unfold on_move; cbn [fst snd m_offset set_pos].
    split; [reflexivity|]. split; [congruence|].
    apply CreateMesh_same_strokes; [congruence | assumption | assumption].
  - rewrite !extrusion_builder; cbn [fst snd m_offset set_pos positions meshes
                                      accumulation strokes].
    split; [reflexivity|]. split; [congruence|]. split; [|assumption].
    assert (L : linear_code (fst c) = true)
      by (apply (move_linear self); congruence).
    pose proof (linear_importer self c L) as I. fold r in I.
    rewrite map_app, Ha, I; cbn [map].
    unfold world, ToAbsolutePosition, set_pos; cbn [m_offset m_pos].
    now rewrite Ho.
Qed.

(** C3 (every point of a stroke is the world position at the time of its
    move), evaluated where the code departs from it.  After [G1 X1 E1] from
    the default importer the head has drawn the segment from world (0,0,0)
    to world (1,0,0), which is what the specification's builder holds.  The
    code buffers the logical points and converts them in [CreateMesh] with
    the offset of that later moment: a [G92] without fields before the end
    of the input moves the offset to (1,0,0), and the mesh holds the points
    (1,0,0) and (2,0,0). *)
Theorem C3_points_shift_with_later_offset :
  let sz := ("G1 X1 E1" ++ LF ++ "G92")%string in
  let cs := [(1, mkLine (rofZ 1) NaN NaN (rofZ 1)); (92, GcodeLine_default)] in
  commands_of (String.length sz) sz = cs /\
  map mVertices (snd (ReadGcodeFile GcodeImporter_default sz))
  = [[vecZ 1 0 0; vecZ 2 0 0]] /\
  spec_strokes GcodeImporter_default cs = [[vecZ 0 0 0; vecZ 1 0 0]] /\
  [[vecZ 1 0 0; vecZ 2 0 0]] <> [[vecZ 0 0 0; vecZ 1 0 0]].
Proof. vm_compute. repeat split. discriminate. Qed.

(** * Further properties of the code *)

(** ** [ReadGcodeMove] and one round of the main loop *)

Lemma unknown_code_round (st : GcodeImporter * Builder) (c : Z * GcodeLine) :
  known_code (fst c) = false -> GcodeCommand st c = st.
Proof.
  destruct st as [self b], c as [g v]; cbn [fst snd].
  unfold known_code, linear_code; intros K.
  apply orb_false_elim in K as [K K92]. apply orb_false_elim in K as [K K91].
  apply orb_false_elim in K as [K K90]. apply orb_false_elim in K as [K K7].
  unfold GcodeCommand, ReadGcodeMove_switch; cbn [fst snd].
  rewrite K, K7, K90, K91, K92. unfold on_move. now rewrite set_pos_same.
Qed.

(** X1.  Lines with a code other than 0, 1, 7, 90, 91, 92 are ignored:
    deleting them from the command stream changes neither the importer the
    parse ends with, nor its buffers, nor the meshes. *)
Theorem X1_unknown_codes_are_ignored (st : GcodeImporter * Builder)
    (self : GcodeImporter) (cs : list (Z * GcodeLine)) :
  run_commands st (filter (fun c => known_code (fst c)) cs) = run_commands st cs
  /\ ReadGcodeCommands self (filter (fun c => known_code (fst c)) cs)
     = ReadGcodeCommands self cs.
Proof.
  assert (R : forall st0,
             run_commands st0 (filter (fun c => known_code (fst c)) cs)
             = run_commands st0 cs).
  { induction cs as [|c cs IH]; intros st0; [reflexivity|].
    cbn [filter]. destruct (known_code (fst c)) eqn:K.
    - unfold run_commands; cbn [fold_left]. apply IH.
    - unfold run_commands at 2; cbn [fold_left].
      rewrite (unknown_code_round st0 c K). apply IH. }
  split; [apply R|]. unfold ReadGcodeCommands. now rewrite R.
Qed.

Lemma none_keeps_pos (self : GcodeImporter) (c : Z * GcodeLine) :
  move_of self c = GcodeMove_None ->
  snd (fst (ReadGcodeMove_switch self (fst c) (snd c) (m_pos self))) = m_pos self.
Proof.
  rewrite move_of_eq. destruct c as [g v]; cbn [fst snd].
  destruct (linear_code g) eqn:L.
  - unfold classify.
    destruct (rgtb (GetE v rzero) rzero); [discriminate|].
    destruct (HasX v) eqn:Hx; [discriminate|].
    destruct (HasY v) eqn:Hy; [discriminate|].
    destruct (HasZ v) eqn:Hz; [discriminate|].
    intros _. exact (linear_move_no_axis self g v (m_pos self) L Hx Hy Hz).
  - intros _. unfold linear_code in L.
    apply orb_false_elim in L as [L L7].
    unfold ReadGcodeMove_switch. rewrite L, L7.
    now destruct (g =? 90), (g =? 91), (g =? 92).
Qed.

(** X2.  A round of the main loop whose move is None leaves the logical
    position of the head where it was: the head moves on Travel and
    Extrusion rounds only.  For a code-92 line the importer after the round
    is the one the reset produced with its position put back to the value
    from before the line. *)
Theorem X2_none_round_keeps_position (self : GcodeImporter) (b : Builder)
    (c : Z * GcodeLine) :
  move_of self c = GcodeMove_None ->
  m_pos (fst (GcodeCommand (self, b) c)) = m_pos self
  /\ snd (GcodeCommand (self, b) c) = b
  /\ forall v : GcodeLine,
       fst (GcodeCommand (self, b) (92, v))
       = set_pos (reset_origin self v) (m_pos self).
Proof.
  intros M. rewrite GcodeCommand_eq, M. unfold on_move; cbn [fst snd m_pos set_pos].
  split; [exact (none_keeps_pos self c M)|]. split; [reflexivity|].
  intros v. now rewrite GcodeCommand_92.
Qed.

Lemma X2_none_round_keeps_position_witness :
  m_pos (fst (GcodeCommand (mkImporter true (vecZ 1 2 3) vzero, Builder_empty)
                (92, mkLine (rofZ 5) NaN NaN NaN)))
  = vecZ 1 2 3.
Proof.
  exact (proj1 (X2_none_round_keeps_position
                  (mkImporter true (vecZ 1 2 3) vzero) Builder_empty
                  (92, mkLine (rofZ 5) NaN NaN NaN) eq_refl)).
Defined.

Lemma mode_kept (self : GcodeImporter) (c : Z * GcodeLine) (pos : aiVector3D) :
  (fst c =? 90) || (fst c =? 91) = false ->
  m_absolute (fst (fst (ReadGcodeMove_switch self (fst c) (snd c) pos)))
  = m_absolute self.
Proof.
  destruct c as [g v]; cbn [fst snd]; intros K.
  apply orb_false_elim in K as [K90 K91].
  unfold ReadGcodeMove_switch. rewrite K90, K91.
  destruct ((g =? 0) || (g =? 1));
    [destruct (m_absolute self) eqn:A; exact A|].
  destruct (g =? 7); [reflexivity|].
  destruct (g =? 92); [|reflexivity].
  cbn [fst]. unfold reset_origin.
  destruct (negb (HasX v) && negb (HasY v) && negb (HasZ v) && negb (HasE v));
    [reflexivity|].
  now destruct (HasX v), (HasY v), (HasZ v).
Qed.

(** X3.  Over a whole command stream the offset is changed by nothing but a
    code-92 line with x, y or z present or with no field at all, and the
    coordinate mode by nothing but the codes 90 and 91. *)
Theorem X3_offset_and_mode_frame (cs : list (Z * GcodeLine))
    (self : GcodeImporter) (b : Builder) :
  (Forall (fun c => resets_offset c = false) cs ->
   m_offset (fst (run_commands (self, b) cs)) = m_offset self)
  /\ (Forall (fun c => (fst c =? 90) || (fst c =? 91) = false) cs ->
      m_absolute (fst (run_commands (self, b) cs)) = m_absolute self).
Proof.
  split; revert self b; induction cs as [|c cs IH]; intros self b F;
    try reflexivity; inversion F as [|c' cs' Hc Hcs]; subst;
    unfold run_commands; cbn [fold_left]; rewrite GcodeCommand_eq;
    set (r := ReadGcodeMove_switch self (fst c) (snd c) (m_pos self));
    destruct (on_move (fst (fst r)) b (snd (fst r)) (move_of self c))
      as [self1 b1] eqn:E;
    assert (E1 : self1 = set_pos (fst (fst r)) (snd (fst r)))
      by (unfold on_move in E; now injection E as <- _);
    pose proof (IH self1 b1 Hcs) as I; unfold run_commands in I;
    rewrite I, E1; cbn [set_pos m_offset m_absolute].
  - exact (offset_kept self c (m_pos self) Hc).
  - exact (mode_kept self c (m_pos self) Hc).
Qed.

Lemma X3_offset_and_mode_frame_witness :
  m_offset (fst (run_commands (mkImporter true vzero (vecZ 1 2 3), Builder_empty)
                   [(1, mkLine (rofZ 5) NaN NaN (rofZ 1));
                    (92, mkLine NaN NaN NaN (rofZ 0)); (91, GcodeLine_default)]))
  = vecZ 1 2 3.
Proof.
  refine (proj1 (X3_offset_and_mode_frame
                   [(1, mkLine (rofZ 5) NaN NaN (rofZ 1));
                    (92, mkLine NaN NaN NaN (rofZ 0)); (91, GcodeLine_default)]
                   (mkImporter true vzero (vecZ 1 2 3)) Builder_empty) _).
  repeat constructor.
Defined.

Lemma swap01_round (st : GcodeImporter * Builder) (c : Z * GcodeLine) :
  GcodeCommand st (swap01 c) = GcodeCommand st c.
Proof.
  destruct c as [g v]. unfold swap01; cbn [fst snd].
  destruct (g =? 0) eqn:E0; [apply Z.eqb_eq in E0; subst; reflexivity|].
  destruct (g =? 1) eqn:E1; [apply Z.eqb_eq in E1; subst; reflexivity|].
  reflexivity.
Qed.

(** X4.  The codes 0 and 1 are interchangeable: exchanging them throughout a
    command stream changes neither the final importer and buffers nor the
    meshes (whether a move deposits is decided by its e field alone). *)
Theorem X4_codes_0_and_1_interchangeable (st : GcodeImporter * Builder)
    (self : GcodeImporter) (cs : list (Z * GcodeLine)) :
  run_commands st (map swap01 cs) = run_commands st cs
  /\ ReadGcodeCommands self (map swap01 cs) = ReadGcodeCommands self cs.
Proof.
  assert (R : forall st0, run_commands st0 (map swap01 cs) = run_commands st0 cs).
  { induction cs as [|c cs IH]; intros st0; [reflexivity|].
    unfold run_commands; cbn [map fold_left]. rewrite swap01_round. apply IH. }
  split; [apply R|]. unfold ReadGcodeCommands. now rewrite R.
Qed.

(** X5.  In absolute mode a code 0 or 1 move is idempotent on the head:
    reading the same line a second time leaves the logical position where
    the first reading put it. *)
Theorem X5_absolute_move_idempotent (self : GcodeImporter) (g : Z)
    (v : GcodeLine) :
  m_absolute self = true -> (g =? 0) || (g =? 1) = true ->
  next_importer (next_importer self (g, v)) (g, v) = next_importer self (g, v).
Proof.
  intros A G.
  assert (L : linear_code g = true) by (unfold linear_code; now rewrite G).
  assert (N : forall s, m_absolute s = true ->
                next_importer s (g, v) = set_pos s (absolute_move s v)).
  { intros s As. unfold next_importer. rewrite GcodeCommand_eq; cbn [fst snd].
    rewrite (ReadGcodeMove_switch_linear s g v _ L), G, As; cbn [fst snd andb].
    now destruct (move_of s (g, v)). }
  rewrite (N self A). rewrite N by exact A.
  unfold set_pos, absolute_move, GetX, GetY, GetZ; cbn [m_pos m_absolute m_offset vx vy vz].
  now destruct (HasX v), (HasY v), (HasZ v).
Qed.

Lemma X5_absolute_move_idempotent_witness :
  next_importer (next_importer (mkImporter true (vecZ 1 2 3) vzero)
                   (1, mkLine (rofZ 9) NaN NaN NaN))
    (1, mkLine (rofZ 9) NaN NaN NaN)
  = next_importer (mkImporter true (vecZ 1 2 3) vzero)
      (1, mkLine (rofZ 9) NaN NaN NaN).
Proof.
  exact (X5_absolute_move_idempotent (mkImporter true (vecZ 1 2 3) vzero) 1
           (mkLine (rofZ 9) NaN NaN NaN) eq_refl eq_refl).
Defined.

(** ** The meshes of a whole parse *)

Lemma total_faces_app (ms : list aiMesh) (m : aiMesh) :
  total_faces (ms ++ [m]) = (total_faces ms + mNumFaces m)%nat.
Proof.
  unfold total_faces. rewrite map_app, list_sum_app; simpl. lia.
Qed.

(** What one round does to the shape of the buffers and to the number of
    segments drawn so far. *)
Lemma on_move_shape (self : GcodeImporter) (b : Builder) (pos : aiVector3D)
    (move : GcodeMove) :
  builder_wf b -> Forall mesh_shape (meshes b) ->
  let b1 := snd (on_move self b pos move) in
  builder_wf b1 /\ Forall mesh_shape (meshes b1)
  /\ (2 * total_faces (meshes b1) + List.length (positions b1)
      = 2 * total_faces (meshes b) + List.length (positions b)
        + match move with Extrusion => 2 | _ => 0 end)%nat
  /\ (move = Travel -> positions b1 = []).
Proof.
  intros W M; cbv zeta. destruct move.
  - unfold on_move; cbn [snd]. repeat split; try assumption; try lia.
    + exact (proj1 W).
    + exact (proj2 W).
    + discriminate.
  - unfold on_move; cbn [snd]. destruct W as [Hi [k Hk]].
    destruct (positions b) as [|p ps] eqn:Hp.
    + rewrite CreateMesh_empty by assumption. rewrite Hp.
      repeat split; try assumption; try lia.
      * now rewrite Hp.
      * exists k. now rewrite Hp.
    + rewrite <- Hp in Hi, Hk.
      rewrite (CreateMesh_wf self b p ps k Hi Hp Hk); cbn [meshes positions].
      split; [apply builder_wf_empty|]. split; [|split; [|reflexivity]].
      * apply Forall_app; split; [assumption|]. constructor; [|constructor].
        exists k; cbn [mFaces mVertices]. rewrite length_map.
        rewrite Hp in Hk; cbn [List.length] in Hk.
        repeat split; [lia | now rewrite Hp].
      * rewrite total_faces_app; unfold mNumFaces; cbn [mFaces List.length].
        rewrite pair_faces_length.
        rewrite Hp in Hk; cbn [List.length] in Hk. lia.
  - rewrite extrusion_builder; cbn [snd meshes positions indices].
    destruct W as [Hi [k Hk]].
    split; [split; cbn [indices positions]|].
    + rewrite Hi, length_app; cbn [List.length].
      replace (List.length (positions b) + 2)%nat
        with (S (S (List.length (positions b)))) by lia.
      rewrite !seq_S, <- app_assoc. reflexivity.
    + exists (S k). rewrite length_app; cbn [List.length]. lia.
    + split; [assumption|]. split; [|discriminate].
      rewrite length_app; cbn [List.length]. lia.
Qed.

Lemma run_shape (cs : list (Z * GcodeLine)) (self : GcodeImporter) (b : Builder) :
  builder_wf b -> Forall mesh_shape (meshes b) ->
  let b1 := snd (run_commands (self, b) cs) in
  builder_wf b1 /\ Forall mesh_shape (meshes b1)
  /\ (2 * total_faces (meshes b1) + List.length (positions b1)
      = 2 * total_faces (meshes b) + List.length (positions b)
        + 2 * depositions cs)%nat.
Proof.
  revert self b; induction cs as [|c cs IH]; intros self b W M; cbv zeta.
  - unfold depositions; cbn. repeat split; try assumption; try lia.
    + exact (proj1 W).
    + exact (proj2 W).
  - unfold run_commands; cbn [fold_left]. rewrite GcodeCommand_eq.
    set (r := ReadGcodeMove_switch self (fst c) (snd c) (m_pos self)).
    destruct (on_move_shape (fst (fst r)) b (snd (fst r)) (move_of self c) W M)
      as [W1 [M1 [C1 _]]].
    destruct (on_move (fst (fst r)) b (snd (fst r)) (move_of self c))
      as [self1 b1]; cbn [snd] in *.
    destruct (IH self1 b1 W1 M1) as [W2 [M2 C2]].
    unfold run_commands in W2, M2, C2.
    split; [exact W2|]. split; [exact M2|]. rewrite C2, C1.
    unfold depositions; cbn [filter].
    destruct (move_of self c) eqn:Mv.
    + destruct (is_deposition c) eqn:D; [|lia].
      apply (move_of_deposition self) in D. congruence.
    + destruct (is_deposition c) eqn:D; [|lia].
      apply (move_of_deposition self) in D. congruence.
    + rewrite (proj1 (move_of_deposition self c) Mv); cbn [List.length]. lia.
Qed.

(** The meshes of a parse: each of the shape [CreateMesh] gives it, and as
    many faces in all as the stream has deposition moves. *)
Lemma parse_shape (self : GcodeImporter) (cs : list (Z * GcodeLine)) :
  Forall mesh_shape (ReadGcodeCommands self cs)
  /\ total_faces (ReadGcodeCommands self cs) = depositions cs.
Proof.
  unfold ReadGcodeCommands, finish.
  destruct (run_shape cs self Builder_empty (builder_wf_empty []) (Forall_nil _))
    as [W [M C]].
  set (st := run_commands (self, Builder_empty) cs) in *.
  destruct (on_move_shape (fst st) (snd st) (m_pos (fst st)) Travel W M)
    as [_ [M1 [C1 P1]]].
  unfold on_move in M1, C1, P1; cbn [snd] in M1, C1, P1.
  split; [exact M1|].
  rewrite (P1 eq_refl) in C1.
  cbn [Builder_empty meshes positions total_faces map list_sum List.length] in C.
  unfold total_faces in C at 2; cbn in C. cbn [List.length] in C1. lia.
Qed.

Lemma pair_faces_bounds (k p : nat) :
  Forall (fun f =>
            List.length (mIndices f) = 2%nat
            /\ Forall (fun i => (p <= i < p + 2 * k)%nat) (mIndices f))
         (pair_faces k p).
Proof.
  revert p; induction k as [|k IH]; intros p; [constructor|].
  cbn [pair_faces]. constructor.
  - cbn [mIndices List.length]. split; [reflexivity|].
    repeat constructor; lia.
  - eapply Forall_impl; [|apply (IH (p + 2)%nat)].
    intros f [L B]. split; [exact L|].
    eapply Forall_impl; [|exact B]. cbn beta. intros i Hi. lia.
Qed.

Lemma mesh_shape_facts (m : aiMesh) :
  mesh_shape m ->
  (1 <= mNumFaces m)%nat /\ mNumVertices m = (2 * mNumFaces m)%nat
  /\ Forall (fun f =>
               List.length (mIndices f) = 2%nat
               /\ Forall (fun i => (i < mNumVertices m)%nat) (mIndices f))
            (mFaces m)
  /\ NoDup (mesh_indices m)
  /\ forall i : nat, (i < mNumVertices m)%nat -> In i (mesh_indices m).
Proof.
  intros [k [K [F L]]]. unfold mNumFaces, mNumVertices, mesh_indices.
  rewrite F, L, pair_faces_length, pair_faces_indices.
  split; [exact K|]. split; [reflexivity|]. split; [|split].
  - eapply Forall_impl; [|apply (pair_faces_bounds k 0)].
    intros f [Lf B]. split; [exact Lf|].
    eapply Forall_impl; [|exact B]. cbn beta. intros i Hi. lia.
  - apply seq_NoDup.
  - intros i Hi. apply in_seq. lia.
Qed.

Lemma shape_counts (ms : list aiMesh) :
  Forall mesh_shape ms ->
  total_vertices ms = (2 * total_faces ms)%nat
  /\ (List.length ms <= total_faces ms)%nat.
Proof.
  unfold total_vertices, total_faces.
  induction 1 as [|m ms Hm _ [IH1 IH2]]; [split; reflexivity|].
  destruct (mesh_shape_facts m Hm) as [K [V _]].
  cbn [map list_sum List.length]. simpl list_sum. lia.
Qed.

(** X9.  No deposition is lost and none is drawn twice: over all meshes of a
    parse there are exactly as many faces as the command stream has
    deposition moves (code 0, 1 or 7 with e > 0) and twice as many vertices;
    so there are at most as many meshes as deposition moves.  The same holds
    for the parse of a text buffer and the commands read from it. *)
Theorem X9_one_face_per_deposition (self : GcodeImporter)
    (cs : list (Z * GcodeLine)) (sz : string) :
  total_faces (ReadGcodeCommands self cs) = depositions cs
  /\ total_vertices (ReadGcodeCommands self cs) = (2 * depositions cs)%nat
  /\ (List.length (ReadGcodeCommands self cs) <= depositions cs)%nat
  /\ total_faces (snd (ReadGcodeFile self sz))
     = depositions (commands_of_buffer sz).
Proof.
  destruct (parse_shape self cs) as [M C].
  destruct (shape_counts _ M) as [V L].
  split; [exact C|]. split; [lia|]. split; [lia|].
  rewrite ReadGcodeFile_commands. exact (proj2 (parse_shape self _)).
Qed.

(** X10.  From a command stream without a deposition move (the empty stream
    in particular) the parse yields no mesh at all, in whatever state the
    importer starts; so does the parse of a text buffer that holds none. *)
Theorem X10_no_deposition_no_mesh (self : GcodeImporter)
    (cs : list (Z * GcodeLine)) :
  depositions cs = 0%nat ->
  ReadGcodeCommands self cs = []
  /\ forall sz : string,
       commands_of_buffer sz = cs -> snd (ReadGcodeFile self sz) = [].
Proof.
  intros D.
  assert (E : ReadGcodeCommands self cs = []).
  { destruct (parse_shape self cs) as [M C].
    destruct (shape_counts _ M) as [_ L]. rewrite C, D in L.
    destruct (ReadGcodeCommands self cs); [reflexivity | cbn in L; lia]. }
  split; [exact E|]. intros sz <-. rewrite ReadGcodeFile_commands. exact E.
Qed.

Lemma X10_no_deposition_no_mesh_witness :
  ReadGcodeCommands (mkImporter false (vecZ 1 2 3) vzero)
    [(0, mkLine (rofZ 5) NaN NaN NaN); (92, GcodeLine_default);
     (1, mkLine NaN (rofZ 2) NaN (rofZ 0)); (28, GcodeLine_default)] = [].
Proof.
  exact (proj1 (X10_no_deposition_no_mesh (mkImporter false (vecZ 1 2 3) vzero)
                  [(0, mkLine (rofZ 5) NaN NaN NaN); (92, GcodeLine_default);
                   (1, mkLine NaN (rofZ 2) NaN (rofZ 0)); (28, GcodeLine_default)]
                  eq_refl)).
Defined.

(** X11.  Every mesh of a parse is a valid line mesh: it has at least one
    face, every face has exactly two indices, every index is below the
    number of vertices, no index occurs twice and every vertex is referred
    to, so the vertex count is twice the face count.  This holds for the
    parse of a command list and of a text buffer. *)
Theorem X11_meshes_are_valid_line_meshes (self : GcodeImporter)
    (cs : list (Z * GcodeLine)) (sz : string) :
  let valid (m : aiMesh) :=
    (1 <= mNumFaces m)%nat /\ mNumVertices m = (2 * mNumFaces m)%nat
    /\ Forall (fun f =>
                 List.length (mIndices f) = 2%nat
                 /\ Forall (fun i => (i < mNumVertices m)%nat) (mIndices f))
              (mFaces m)
    /\ NoDup (mesh_indices m)
    /\ forall i : nat, (i < mNumVertices m)%nat -> In i (mesh_indices m) in
  Forall valid (ReadGcodeCommands self cs)
  /\ Forall valid (snd (ReadGcodeFile self sz)).
Proof.
  cbv zeta. split.
  - eapply Forall_impl; [|exact (proj1 (parse_shape self cs))].
    exact mesh_shape_facts.
  - rewrite ReadGcodeFile_commands.
    eapply Forall_impl; [|exact (proj1 (parse_shape self _))].
    exact mesh_shape_facts.
Qed.

(** ** Each mesh is a connected polyline *)

Lemma connected_map (f : aiVector3D -> aiVector3D) (ps : list aiVector3D) :
  connected ps -> connected (map f ps).
Proof.
  intros C i a b Ha Hb. rewrite nth_error_map in Ha, Hb.
  destruct (nth_error ps (2 * i + 1)) as [a0|] eqn:Ea; [|discriminate].
  destruct (nth_error ps (2 * i + 2)) as [b0|] eqn:Eb; [|discriminate].
  cbn in Ha, Hb. injection Ha as <-. injection Hb as <-.
  f_equal. exact (C i a0 b0 Ea Eb).
Qed.

Lemma connected_app (ps : list aiVector3D) (k : nat) (p q : aiVector3D) :
  connected ps -> List.length ps = (2 * k)%nat ->
  (forall a, nth_error ps (List.length ps - 1) = Some a -> a = p) ->
  connected (ps ++ [p; q]).
Proof.
  intros C L Last i a b Ha Hb.
  destruct (Nat.lt_ge_cases (2 * i + 2) (2 * k)) as [Lt|Ge].
  - rewrite nth_error_app1 in Ha, Hb by lia. exact (C i a b Ha Hb).
  - destruct (Nat.eq_dec (2 * i + 2) (2 * k)) as [E|N].
    + rewrite nth_error_app1 in Ha by lia.
      rewrite nth_error_app2 in Hb by lia.
      replace (2 * i + 2 - List.length ps)%nat with 0%nat in Hb by lia.
      cbn in Hb. injection Hb as <-.
      apply Last. replace (List.length ps - 1)%nat with (2 * i + 1)%nat by lia.
      exact Ha.
    + rewrite nth_error_app2 in Hb by lia.
      assert (G : (2 <= 2 * i + 2 - List.length ps)%nat) by lia.
      destruct (2 * i + 2 - List.length ps)%nat as [|[|n]]; try lia.
      destruct n; discriminate.
Qed.

Lemma connected_nil : connected [].
Proof. intros i a b Ha. destruct (2 * i + 1)%nat; discriminate. Qed.

(** The buffers between two rounds of the loop: the points so far form a
    connected polyline that ends at the head. *)
Lemma round_connected (self : GcodeImporter) (b : Builder) (c : Z * GcodeLine) :
  connected (positions b) ->
  (exists k : nat, List.length (positions b) = (2 * k)%nat) ->
  (forall a, nth_error (positions b) (List.length (positions b) - 1) = Some a ->
             a = m_pos self) ->
  Forall (fun m => connected (mVertices m)) (meshes b) ->
  let st := GcodeCommand (self, b) c in
  connected (positions (snd st))
  /\ (exists k : nat, List.length (positions (snd st)) = (2 * k)%nat)
  /\ (forall a, nth_error (positions (snd st))
                  (List.length (positions (snd st)) - 1) = Some a ->
                a = m_pos (fst st))
  /\ Forall (fun m => connected (mVertices m)) (meshes (snd st)).
Proof.
  intros C [k K] Last M; cbv zeta. rewrite GcodeCommand_eq.
  set (r := ReadGcodeMove_switch self (fst c) (snd c) (m_pos self)).
  destruct (move_of self c) eqn:Mv.
  - unfold on_move; cbn [fst snd set_pos m_pos].
    pose proof (none_keeps_pos self c Mv) as P. fold r in P. rewrite P.
    repeat split; try assumption. now exists k.
  - unfold on_move; cbn [fst snd]. unfold CreateMesh.
    destruct (positions b) as [|p ps] eqn:Hp; cbn [positions meshes].
    + rewrite Hp. repeat split; try assumption.
      * exists 0%nat; reflexivity.
      * intros a Ha; discriminate.
    + split; [apply connected_nil|]. split; [exists 0%nat; reflexivity|].
      split; [intros a Ha; discriminate|].
      apply Forall_app; split; [assumption|]. constructor; [|constructor].
      cbn [mVertices]. now apply connected_map.
  - rewrite extrusion_builder; cbn [fst snd positions meshes set_pos m_pos].
    assert (L : linear_code (fst c) = true)
      by (apply (move_linear self); congruence).
    pose proof (linear_importer self c L) as I. fold r in I. rewrite I.
    split; [exact (connected_app _ k _ _ C K Last)|].
    split; [exists (S k); rewrite length_app; cbn [List.length]; lia|].
    split; [|assumption].
    intros a Ha. rewrite length_app in Ha; cbn [List.length] in Ha.
    rewrite nth_error_app2 in Ha by lia.
    replace (List.length (positions b) + 2 - 1 - List.length (positions b))%nat
      with 1%nat in Ha by lia.
    cbn in Ha. now injection Ha as <-.
Qed.

Lemma run_connected (cs : list (Z * GcodeLine)) (self : GcodeImporter) (b : Builder) :
  connected (positions b) ->
  (exists k : nat, List.length (positions b) = (2 * k)%nat) ->
  (forall a, nth_error (positions b) (List.length (positions b) - 1) = Some a ->
             a = m_pos self) ->
  Forall (fun m => connected (mVertices m)) (meshes b) ->
  connected (positions (snd (run_commands (self, b) cs)))
  /\ Forall (fun m => connected (mVertices m))
            (meshes (snd (run_commands (self, b) cs))).
Proof.
  revert self b; induction cs as [|c cs IH]; intros self b C K Last M;
    [now split|].
  unfold run_commands; cbn [fold_left].
  destruct (round_connected self b c C K Last M) as [C1 [K1 [L1 M1]]].
  destruct (GcodeCommand (self, b) c) as [self1 b1]; cbn [fst snd] in *.
  exact (IH self1 b1 C1 K1 L1 M1).
Qed.

(** X12.  Every mesh of a parse is a connected polyline: each of its
    segments starts at the vertex at which the segment before it ended
    (vertex 2i+1 equals vertex 2i+2).  Between two deposition moves of one
    mesh only lines that do not move the head can occur. *)
Theorem X12_meshes_are_connected_polylines (self : GcodeImporter)
    (cs : list (Z * GcodeLine)) (sz : string) :
  Forall (fun m => connected (mVertices m)) (ReadGcodeCommands self cs)
  /\ Forall (fun m => connected (mVertices m)) (snd (ReadGcodeFile self sz)).
Proof.
  assert (R : forall cs0,
             Forall (fun m => connected (mVertices m)) (ReadGcodeCommands self cs0)).
  { intros cs0. unfold ReadGcodeCommands, finish.
    assert (N0 : forall a : aiVector3D,
               nth_error (positions Builder_empty)
                 (List.length (positions Builder_empty) - 1) = Some a ->
               a = m_pos self) by (intros a Ha; discriminate).
    destruct (run_connected cs0 self Builder_empty connected_nil
                (ex_intro _ 0%nat eq_refl) N0 (Forall_nil _)) as [C M].
    set (st := run_commands (self, Builder_empty) cs0) in *.
    unfold CreateMesh. destruct (positions (snd st)) as [|p ps]; [exact M|].
    cbn [meshes]. apply Forall_app; split; [exact M|].
    constructor; [|constructor]. cbn [mVertices]. now apply connected_map. }
  split; [apply R|]. rewrite ReadGcodeFile_commands. apply R.
Qed.

(** ** The scene *)

Lemma to_string_injective (a b : nat) : to_string a = to_string b -> a = b.
Proof.
  unfold to_string; intros E.
  apply (f_equal DecimalString.NilEmpty.uint_of_string) in E.
  rewrite !DecimalString.NilEmpty.usu in E. injection E as E.
  apply (f_equal Nat.of_uint) in E.
  now rewrite !DecimalNat.Unsigned.of_to in E.
Qed.

Lemma CreateMesh_scene_step (self : GcodeImporter) (s : SceneBuilder) :
  scene_in_step s ->
  scene_in_step (CreateMesh_scene self s)
  /\ buffers (CreateMesh_scene self s) = CreateMesh self (buffers s).
Proof.
  intros [Hn Hd]. unfold CreateMesh_scene, CreateMesh.
  destruct (positions (buffers s)) as [|p ps] eqn:Hp;
    [split; [split; assumption | reflexivity]|].
  cbn [buffers mesh_names nodes]. split; [|reflexivity].
  unfold scene_in_step; cbn [buffers mesh_names nodes meshes].
  rewrite length_app; cbn [List.length].
  replace (List.length (meshes (buffers s)) + 1)%nat
    with (S (List.length (meshes (buffers s)))) by lia.
  rewrite seq_S, !map_app, <- Hn, <- Hd. split; reflexivity.
Qed.

Lemma on_move_scene_step (self : GcodeImporter) (s : SceneBuilder)
    (pos : aiVector3D) (move : GcodeMove) :
  scene_in_step s ->
  scene_in_step (snd (on_move_scene self s pos move))
  /\ buffers (snd (on_move_scene self s pos move))
     = snd (on_move self (buffers s) pos move)
  /\ fst (on_move_scene self s pos move) = fst (on_move self (buffers s) pos move).
Proof.
  intros S. destruct move.
  - unfold on_move_scene, on_move; cbn [fst snd buffers].
    destruct S as [Hn Hd].
    split; [split; cbn [buffers mesh_names nodes]; assumption|].
    split; reflexivity.
  - unfold on_move_scene, on_move; cbn [fst snd].
    destruct (CreateMesh_scene_step self s S) as [S1 B1].
    split; [exact S1|]. split; [exact B1 | reflexivity].
  - unfold on_move_scene. rewrite extrusion_builder; cbn [fst snd buffers].
    split; [|now split]. destruct S as [Hn Hd].
    split; cbn [buffers mesh_names nodes meshes]; assumption.
Qed.

Lemma GcodeCommand_scene_eq (self : GcodeImporter) (s : SceneBuilder)
    (c : Z * GcodeLine) :
  GcodeCommand_scene (self, s) c
  = on_move_scene
      (fst (fst (ReadGcodeMove_switch self (fst c) (snd c) (m_pos self))))
      s
      (snd (fst (ReadGcodeMove_switch self (fst c) (snd c) (m_pos self))))
      (move_of self c).
Proof.
  unfold GcodeCommand_scene, move_of; cbn [fst snd].
  now destruct (ReadGcodeMove_switch _ _ _ _) as [[self1 pos1] move].
Qed.

Lemma run_scene_step (cs : list (Z * GcodeLine)) (self : GcodeImporter)
    (s : SceneBuilder) :
  scene_in_step s ->
  let st := fold_left GcodeCommand_scene cs (self, s) in
  scene_in_step (snd st)
  /\ (fst st, buffers (snd st)) = run_commands (self, buffers s) cs.
Proof.
  revert self s; induction cs as [|c cs IH]; intros self s S; cbv zeta;
    [now split|].
  unfold run_commands; cbn [fold_left].
  rewrite GcodeCommand_eq, GcodeCommand_scene_eq.
  set (r := ReadGcodeMove_switch self (fst c) (snd c) (m_pos self)).
  destruct (on_move_scene_step (fst (fst r)) s (snd (fst r)) (move_of self c) S)
    as [S1 [B1 F1]].
  destruct (on_move_scene (fst (fst r)) s (snd (fst r)) (move_of self c))
    as [self1 s1]; cbn [fst snd] in *.
  destruct (on_move (fst (fst r)) (buffers s) (snd (fst r)) (move_of self c))
    as [self2 b2]; cbn [fst snd] in *. subst self2 b2.
  exact (IH self1 s1 S1).
Qed.

Lemma nth_error_map_seq {A : Type} (f : nat -> A) (n i : nat) :
  (i < n)%nat -> nth_error (map f (seq 0 n)) i = Some (f i).
Proof.
  intros H. rewrite nth_error_map.
  rewrite (nth_error_nth' (seq 0 n) 0%nat) by (rewrite length_seq; exact H).
  now rewrite seq_nth.
Qed.

(** X13.  The scene [ReadGcodeFile] leaves holds the meshes of the parse,
    and its nodes and mesh names run in step with them: there are as many
    child nodes as meshes, the i-th node refers to exactly one mesh, mesh i
    (so every node's mesh index is in range), the i-th mesh is named by the
    decimal numeral of i (so the names are pairwise distinct), and the root
    node is named G. *)
Theorem X13_scene_nodes_match_meshes (self : GcodeImporter)
    (cs : list (Z * GcodeLine)) :
  let sc := ReadGcodeScene self cs in
  mMeshes_scene sc = ReadGcodeCommands self cs
  /\ mNumMeshes_scene sc = List.length (ReadGcodeCommands self cs)
  /\ mNumChildren sc = mNumMeshes_scene sc
  /\ List.length (mMeshNames sc) = mNumMeshes_scene sc
  /\ mRootName sc = "G"%string
  /\ (forall i : nat, (i < mNumMeshes_scene sc)%nat ->
        nth_error (mChildren sc) i = Some (mkNode 1 [i])
        /\ nth_error (mMeshNames sc) i = Some (to_string i))
  /\ NoDup (mMeshNames sc).
Proof.
  cbv zeta. unfold ReadGcodeScene, ReadGcodeCommands, finish.
  assert (S0 : scene_in_step SceneBuilder_empty) by (split; reflexivity).
  destruct (run_scene_step cs self SceneBuilder_empty S0) as [S1 E1].
  cbv zeta in S1, E1. cbn [SceneBuilder_empty buffers] in E1.
  set (st := fold_left GcodeCommand_scene cs (self, SceneBuilder_empty)) in *.
  destruct (CreateMesh_scene_step (fst st) (snd st) S1) as [[Hn Hd] B].
  rewrite <- E1; cbn [fst snd].
  cbn [mMeshes_scene mNumMeshes_scene mNumChildren mMeshNames mRootName mChildren].
  rewrite Hn, Hd, B, !length_map, !length_seq.
  do 5 (split; [reflexivity|]). split.
  - intros i Hi. split.
    + now apply (nth_error_map_seq (fun j => mkNode 1 [j])).
    + now apply (nth_error_map_seq to_string).
  - apply NoDup_map_NoDup_ForallPairs; [|apply seq_NoDup].
    intros a b _ _. apply to_string_injective.
Qed.

(** ** The tokenizer within the buffer *)







(** ** Where [ReadGcodeLine] leaves the cursor *)

Lemma in_fields_nat (c : ascii) :
  nat_of_ascii c <> 13%nat -> nat_of_ascii c <> 10%nat ->
  nat_of_ascii c <> 0%nat -> nat_of_ascii c <> 12%nat ->
  nat_of_ascii c <> 59%nat -> in_fields c = true.
Proof.
  intros H13 H10 H0 H12 H59.
  unfold in_fields, IsLineEnd, IsComment, is_char.
  apply Nat.eqb_neq in H13, H10, H0, H12, H59.
  now rewrite H13, H10, H0, H12, H59.
Qed.

Lemma is_char_in_fields (c : ascii) (n : nat) :
  is_char c n = true ->
  n <> 13%nat -> n <> 10%nat -> n <> 0%nat -> n <> 12%nat -> n <> 59%nat ->
  in_fields c = true.
Proof.
  unfold is_char. intros E. apply Nat.eqb_eq in E. subst n. apply in_fields_nat.
Qed.

Lemma IsSpace_in_fields (c : ascii) : IsSpace c = true -> in_fields c = true.
Proof.
  unfold IsSpace. intros H. apply orb_true_iff in H as [H|H];
    apply (is_char_in_fields c _ H); discriminate.
Qed.

Lemma IsDigit_in_fields (c : ascii) : IsDigit c = true -> in_fields c = true.
Proof.
  unfold IsDigit; cbv zeta. intros H. apply andb_true_iff in H as [H1 H2].
  apply Nat.leb_le in H1, H2. apply in_fields_nat; lia.
Qed.

Lemma IsComment_char (c : ascii) : IsComment c = true -> c = ";"%char.
Proof.
  unfold IsComment, is_char. intros E. apply Nat.eqb_eq in E.
  rewrite <- (ascii_nat_embedding c), E. reflexivity.
Qed.

Lemma ToUpper_semicolon (c : ascii) :
  is_char (ToUpper c) 59 = true -> c = ";"%char.
Proof.
  destruct c as [[] [] [] [] [] [] [] []]; vm_compute; intros H;
    first [reflexivity | discriminate H].
Qed.

Lemma end_of_fields_cons (c : ascii) (r : string) :
  in_fields c = true -> end_of_fields (String c r) = end_of_fields r.
Proof.
  unfold in_fields. intros H. apply andb_true_iff in H as [Hl Hc].
  apply negb_true_iff in Hl, Hc. cbn [end_of_fields]. now rewrite Hl, Hc.
Qed.

Lemma end_of_fields_skip_while (p : ascii -> bool) (sz : string) :
  (forall c, p c = true -> in_fields c = true) ->
  end_of_fields (skip_while p sz) = end_of_fields sz.
Proof.
  intros P. induction sz as [|c r IH]; [reflexivity|].
  cbn [skip_while]. destruct (p c) eqn:E; [|reflexivity].
  now rewrite IH, (end_of_fields_cons c r (P c E)).
Qed.

Lemma end_of_fields_next (sz : string) :
  in_fields (peek sz) = true -> end_of_fields (next sz) = end_of_fields sz.
Proof.
  destruct sz as [|c r]; [discriminate|]. cbn [peek next]. intros H.
  now rewrite (end_of_fields_cons c r H).
Qed.

Lemma end_of_fields_digits (sz : string) (acc : Z) (n : nat) :
  end_of_fields (snd (digits acc n sz)) = end_of_fields sz.
Proof.
  revert acc n; induction sz as [|c r IH]; intros acc n; [reflexivity|].
  cbn [digits]. destruct (IsDigit c) eqn:E; [|reflexivity].
  now rewrite IH, (end_of_fields_cons c r (IsDigit_in_fields c E)).
Qed.

Lemma end_of_fields_fast_atof (sz : string) :
  end_of_fields (snd (fast_atof sz)) = end_of_fields sz.
Proof.
  unfold fast_atof; cbv zeta.
  set (c := if is_char (peek sz) 45 || is_char (peek sz) 43 then next sz else sz).
  assert (Hc : end_of_fields c = end_of_fields sz).
  { subst c. destruct (is_char (peek sz) 45) eqn:Em; cbn [orb].
    - apply end_of_fields_next. apply (is_char_in_fields _ _ Em); discriminate.
    - destruct (is_char (peek sz) 43) eqn:Ep; [|reflexivity].
      apply end_of_fields_next. apply (is_char_in_fields _ _ Ep); discriminate. }
  destruct (starts_number c); [|reflexivity].
  pose proof (end_of_fields_digits c 0 0) as H1.
  destruct (digits 0 0 c) as [[ipart n1] c1]; cbn [snd] in H1.
  assert (Hdot : is_char (peek c1) 46 = true ->
                 end_of_fields (next c1) = end_of_fields c1).
  { intros Ed. apply end_of_fields_next.
    apply (is_char_in_fields _ _ Ed); discriminate. }
  destruct (is_char (peek c1) 46) eqn:Ed; cbn [andb].
  - destruct (IsDigit (peek (next c1))).
    + pose proof (end_of_fields_digits (next c1) 0 0) as H2.
      destruct (digits 0 0 (next c1)) as [[fpart n2] c2]; cbn [snd] in *.
      now rewrite H2, (Hdot eq_refl), H1.
    + cbn [snd]. now rewrite (Hdot eq_refl), H1.
  - cbn [snd]. now rewrite H1.
Qed.

Lemma end_of_fields_SkipValue (sz : string) :
  end_of_fields (SkipValue sz) = end_of_fields sz.
Proof.
  apply end_of_fields_skip_while. intros c H.
  apply andb_true_iff in H as [H1 H2]. unfold in_fields. rewrite H2.
  unfold IsSpaceOrNewLine in H1. apply negb_true_iff in H1.
  apply orb_false_elim in H1 as [_ H1]. now rewrite H1.
Qed.

Lemma end_of_fields_at_line_end (sz : string) :
  IsLineEnd (peek sz) = true -> end_of_fields sz = sz.
Proof.
  destruct sz as [|c r]; [reflexivity|]. cbn [peek end_of_fields]. now intros ->.
Qed.

Lemma ReadGcodeLine_loop_end (fuel : nat) (v : GcodeLine) (sz : string) :
  (String.length sz <= fuel)%nat ->
  snd (ReadGcodeLine_loop fuel v sz) = end_of_fields sz.
Proof.
  revert v sz; induction fuel as [|fuel IH]; intros v sz L.
  - destruct sz; [reflexivity | simpl in L; lia].
  - cbn [ReadGcodeLine_loop]. unfold SkipSpaces.
    pose proof (end_of_fields_skip_while IsSpace sz IsSpace_in_fields) as E1.
    pose proof (skip_while_length IsSpace sz) as L1.
    destruct (skip_while IsSpace sz) as [|c r].
    { cbn. now rewrite <- E1. }
    cbn [peek next]. rewrite <- E1. cbn [String.length] in L1.
    destruct (IsLineEnd c) eqn:El; cbn [negb].
    { cbn [snd end_of_fields]. now rewrite El. }
    destruct (IsComment c) eqn:Ec.
    { apply IsComment_char in Ec. subst c. eval_tag. reflexivity. }
    assert (E2 : end_of_fields (String c r) = end_of_fields r)
      by (cbn [end_of_fields]; now rewrite El, Ec).
    rewrite E2.
    pose proof (fast_atof_length r) as La.
    pose proof (end_of_fields_fast_atof r) as Ea.
    pose proof (SkipValue_length r) as Lv.
    destruct (is_char (ToUpper c) 88);
      [|destruct (is_char (ToUpper c) 89);
        [|destruct (is_char (ToUpper c) 90);
          [|destruct (is_char (ToUpper c) 69);
            [|destruct (is_char (ToUpper c) 59) eqn:E59]]]];
      try (destruct (fast_atof r) as [r0 sz3]; cbn [snd] in La, Ea;
           rewrite <- Ea; apply IH; lia).
    + apply ToUpper_semicolon in E59. subst c. discriminate Ec.
    + rewrite <- (end_of_fields_SkipValue r). apply IH. lia.
Qed.

(** X14.  [ReadGcodeLine] leaves the cursor exactly at the end of the
    fields of the line it was given: at the first line end (CR, LF, form
    feed, NUL or the end of the buffer) or just behind the first comment
    marker [;], whichever comes first.  So it never reads beyond the line,
    and the text of a comment is left for the main loop.  (The cursor
    helpers of ParsingUtils.h and fast_atof.h are modelled from the
    specification.) *)
Theorem X14_line_scan_stops_in_line (sz : string) :
  snd (ReadGcodeLine sz) = end_of_fields sz.
Proof. apply ReadGcodeLine_loop_end. lia. Qed.

(** ** The main loop reaches the end of the buffer *)

Lemma ReadGcodeMove_cursor (self : GcodeImporter) (sz : string) (pos : aiVector3D) :
  snd (fst (fst (ReadGcodeMove self sz pos)))
  = snd (ReadGcodeLine (snd (strtoul10 sz))).
Proof.
  unfold ReadGcodeMove.
  destruct (strtoul10 sz) as [u sz1]; cbn [snd].
  destruct (ReadGcodeLine sz1) as [v sz2]; cbn [snd].
  now destruct (ReadGcodeMove_switch self (to_int u) v pos) as [[self1 pos1] move].
Qed.

Lemma ReadGcodeMove_length (self : GcodeImporter) (sz : string) (pos : aiVector3D) :
  (String.length (snd (fst (fst (ReadGcodeMove self sz pos)))) <= String.length sz)%nat.
Proof.
  rewrite ReadGcodeMove_cursor.
  pose proof (strtoul10_length sz). pose proof (ReadGcodeLine_length (snd (strtoul10 sz))).
  lia.
Qed.

Lemma ReadGcodeFile_run_loop (fuel : nat) (self : GcodeImporter) (b : Builder)
    (sz : string) :
  fst (ReadGcodeFile_run fuel self b sz) = ReadGcodeFile_loop fuel self b sz.
Proof.
  revert self b sz; induction fuel as [|fuel IH]; intros self b sz; [reflexivity|].
  cbn [ReadGcodeFile_run ReadGcodeFile_loop].
  destruct (SkipSpacesAndLineEnd sz) as [more sz1].
  destruct more; [|reflexivity].
  destruct (is_G sz1); [|apply IH].
  destruct (ReadGcodeMove self (next sz1) (m_pos self)) as [[[self1 sz2] pos1] move].
  destruct (on_move self1 b pos1 move) as [self2 b2]. apply IH.
Qed.

Lemma ReadGcodeFile_run_end (fuel : nat) (self : GcodeImporter) (b : Builder)
    (sz : string) :
  (String.length sz <= fuel)%nat ->
  is_char (peek (snd (ReadGcodeFile_run fuel self b sz))) 0 = true.
Proof.
  revert self b sz; induction fuel as [|fuel IH]; intros self b sz L.
  - destruct sz; [reflexivity | simpl in L; lia].
  - cbn [ReadGcodeFile_run].
    pose proof (SkipSpacesAndLineEnd_length sz) as H1.
    pose proof (SkipSpacesAndLineEnd_stop sz) as [H13 H10].
    unfold SkipSpacesAndLineEnd in *; cbn [fst snd] in *.
    set (sz1 := skip_while _ sz) in *.
    destruct (is_char (peek sz1) 0) eqn:E0; cbn [negb]; [exact E0|].
    pose proof (next_length_lt sz1 E0) as H2.
    destruct (is_G sz1).
    + pose proof (ReadGcodeMove_length self (next sz1) (m_pos self)) as H3.
      destruct (ReadGcodeMove self (next sz1) (m_pos self))
        as [[[self1 sz2] pos1] move]; cbn [fst snd] in H3.
      destruct (on_move self1 b pos1 move) as [self2 b2].
      apply IH. lia.
    + pose proof (SkipLine_length_lt sz1 E0 H13 H10). apply IH. lia.
Qed.

Lemma ReadGcodeFile_round_shortens (self : GcodeImporter) (b : Builder)
    (sz : string) :
  fst (SkipSpacesAndLineEnd sz) = true ->
  (String.length (snd (ReadGcodeFile_run 1 self b sz)) < String.length sz)%nat.
Proof.
  cbn [ReadGcodeFile_run].
  pose proof (SkipSpacesAndLineEnd_length sz) as H1.
  pose proof (SkipSpacesAndLineEnd_stop sz) as [H13 H10].
  unfold SkipSpacesAndLineEnd in *; cbn [fst snd] in *.
  set (sz1 := skip_while _ sz) in *.
  destruct (is_char (peek sz1) 0) eqn:E0; cbn [negb]; [discriminate|]. intros _.
  pose proof (next_length_lt sz1 E0) as H2.
  destruct (is_G sz1).
  - pose proof (ReadGcodeMove_length self (next sz1) (m_pos self)) as H3.
    destruct (ReadGcodeMove self (next sz1) (m_pos self))
      as [[[self1 sz2] pos1] move]; cbn [fst snd] in H3.
    destruct (on_move self1 b pos1 move) as [self2 b2]. cbn [snd]. lia.
  - pose proof (SkipLine_length_lt sz1 E0 H13 H10). cbn [snd]. lia.
Qed.

(** X16.  The main loop of [ReadGcodeFile] makes progress and reaches the
    end of the buffer.  A round entered with the [while] condition true
    leaves a cursor with strictly fewer characters to read; and with at
    least as many rounds as the buffer has characters the loop stops with
    its cursor on the terminating NUL, having left through its own
    condition, with the importer and the buffers [ReadGcodeFile_loop]
    computes.  (The cursor helpers of ParsingUtils.h and fast_atof.h are
    modelled from the specification.) *)
Theorem X16_loops_reach_the_end (fuel : nat) (self : GcodeImporter)
    (b : Builder) (sz : string) :
  (String.length sz <= fuel)%nat ->
  fst (ReadGcodeFile_run fuel self b sz) = ReadGcodeFile_loop fuel self b sz
  /\ is_char (peek (snd (ReadGcodeFile_run fuel self b sz))) 0 = true
  /\ fst (SkipSpacesAndLineEnd (snd (ReadGcodeFile_run fuel self b sz))) = false
  /\ (fst (SkipSpacesAndLineEnd sz) = true ->
      (String.length (snd (ReadGcodeFile_run 1 self b sz)) < String.length sz)%nat).
Proof.
  intros L. split; [apply ReadGcodeFile_run_loop|].
  pose proof (ReadGcodeFile_run_end fuel self b sz L) as E.
  split; [exact E|]. split; [|apply ReadGcodeFile_round_shortens].
  destruct (snd (ReadGcodeFile_run fuel self b sz)) as [|c r]; [reflexivity|].
  cbn [peek] in E. unfold SkipSpacesAndLineEnd; cbn [skip_while fst].
  assert (P : IsSpace c || is_char c 13 || is_char c 10 = false).
  { unfold IsSpace, is_char in *. apply Nat.eqb_eq in E. now rewrite E. }
  rewrite P. cbn [peek]. now rewrite E.
Qed.

Lemma X16_loops_reach_the_end_witness :
  is_char (peek (snd (ReadGcodeFile_run 16 GcodeImporter_default Builder_empty
                        "G1 X1 E1 ; first"))) 0 = true.
Proof.
  refine (proj1 (proj2 (X16_loops_reach_the_end 16 GcodeImporter_default
                          Builder_empty "G1 X1 E1 ; first" _))).
  simpl. lia.
Defined.

(** ** Strokes drawn between two resets *)

Lemma CreateMesh_positions (self : GcodeImporter) (b : Builder) :
  positions (CreateMesh self b) = [].
Proof.
  unfold CreateMesh. destruct (positions b) eqn:E; [exact E | reflexivity].
Qed.

Lemma resets_offset_not_linear (c : Z * GcodeLine) :
  resets_offset c = true -> is_deposition c = false /\ is_travel c = false.
Proof.
  unfold resets_offset, is_deposition, is_travel, linear_code.
  intros H. apply andb_true_iff in H as [H _]. apply Z.eqb_eq in H.
  rewrite H. split; reflexivity.
Qed.

Lemma round_strokes_in_step (opened : bool) (c : Z * GcodeLine)
    (st : GcodeImporter * Builder) (ss : GcodeImporter * StrokeBuilder) :
  strokes_in_step opened st ss ->
  (is_deposition c = false -> is_travel c = false ->
   opened && resets_offset c = false) ->
  strokes_in_step
    (if is_deposition c then true else if is_travel c then false else opened)
    (GcodeCommand st c) (spec_command ss c).
Proof.
  intros [S E] Cnd. destruct st as [self b], ss as [self' sb]; cbn [fst snd] in *.
  destruct (resets_offset c) eqn:R.
  - destruct (resets_offset_not_linear c R) as [D T]. rewrite D, T.
    specialize (Cnd D T). rewrite andb_true_r in Cnd. subst opened.
    specialize (E eq_refl).
    assert (Mv : move_of self c = GcodeMove_None).
    { destruct (move_of self c) eqn:Mv; [reflexivity| |].
      - apply move_of_travel in Mv. congruence.
      - apply move_of_deposition in Mv. congruence. }
    destruct S as [F [_ [Ha Hs]]]. cbn [fst snd] in *. subst self'.
    unfold spec_command, next_importer; cbn [fst snd].
    rewrite !GcodeCommand_eq, Mv. unfold on_move; cbn [fst snd].
    split; [|intros _; exact E].
    unfold same_strokes; cbn [fst snd].
    split; [reflexivity|]. split; [reflexivity|]. split; [|exact Hs].
    rewrite Ha, E. reflexivity.
  - pose proof (GcodeCommand_same_strokes (m_offset self) c (self, b) (self', sb)
                  R S) as S1.
    assert (O : m_offset (fst (GcodeCommand (self, b) c)) = m_offset self)
      by exact (proj1 (proj2 S1)).
    split; [now rewrite O|].
    rewrite GcodeCommand_eq.
    destruct (is_deposition c) eqn:D; [discriminate|].
    destruct (is_travel c) eqn:T.
    + intros _. rewrite (proj2 (move_of_travel self c) T).
      unfold on_move; cbn [snd]. apply CreateMesh_positions.
    + intros Op. assert (Mv : move_of self c = GcodeMove_None).
      { destruct (move_of self c) eqn:Mv; [reflexivity| |].
        - apply move_of_travel in Mv. congruence.
        - apply move_of_deposition in Mv. congruence. }
      rewrite Mv. unfold on_move; cbn [snd]. exact (E Op).
Qed.

Lemma run_strokes_in_step (cs : list (Z * GcodeLine)) (opened : bool)
    (st : GcodeImporter * Builder) (ss : GcodeImporter * StrokeBuilder) :
  resets_between_strokes opened cs = true ->
  strokes_in_step opened st ss ->
  exists opened1 : bool,
    strokes_in_step opened1 (run_commands st cs) (fold_left spec_command cs ss).
Proof.
  revert opened st ss; induction cs as [|c cs IH]; intros opened st ss R S;
    [now exists opened|].
  cbn [resets_between_strokes] in R. unfold run_commands; cbn [fold_left].
  assert (Cnd : is_deposition c = false -> is_travel c = false ->
                opened && resets_offset c = false).
  { intros D T. rewrite D, T in R. apply andb_true_iff in R as [R _].
    now apply negb_true_iff in R. }
  pose proof (round_strokes_in_step opened c st ss S Cnd) as S1.
  destruct (is_deposition c); [exact (IH _ _ _ R S1)|].
  destruct (is_travel c); [exact (IH _ _ _ R S1)|].
  apply andb_true_iff in R as [_ R]. exact (IH _ _ _ R S1).
Qed.

(** X17.  When every code-92 line that changes the offset (one with x, y
    or z present, or with no field at all) falls outside an open stroke,
    that is, before the first deposition move or between a travel move and
    the next deposition move, the vertices of the meshes are exactly the
    world positions at the time of each move: for every deposition the
    world position of the head before it and after it, in order, as the
    builder of the specification collects them.  This holds for a command
    list and for the text buffer it is read from. *)
Theorem X17_vertices_are_world_positions (self : GcodeImporter)
    (cs : list (Z * GcodeLine)) :
  resets_between_strokes false cs = true ->
  map mVertices (ReadGcodeCommands self cs) = spec_strokes self cs
  /\ forall sz : string,
       commands_of_buffer sz = cs ->
       map mVertices (snd (ReadGcodeFile self sz)) = spec_strokes self cs.
Proof.
  intros R.
  assert (E : map mVertices (ReadGcodeCommands self cs) = spec_strokes self cs).
  { unfold ReadGcodeCommands, finish, spec_strokes.
    assert (S0 : strokes_in_step false (self, Builder_empty) (self, mkStrokes [] []))
      by (repeat split).
    destruct (run_strokes_in_step cs false _ _ R S0) as [o1 [[_ [Ho [Ha Hs]]] _]].
    symmetry.
    exact (proj2 (CreateMesh_same_strokes _ _ _ _ Ho Ha Hs)). }
  split; [exact E|].
  intros sz <-. unfold commands_of_buffer. now rewrite ReadGcodeFile_commands.
Qed.

Lemma X17_vertices_are_world_positions_witness :
  map mVertices
    (ReadGcodeCommands GcodeImporter_default
       [(92, mkLine (rofZ 0) (rofZ 0) (rofZ 0) NaN);
        (1, mkLine (rofZ 3) NaN NaN (rofZ 1)); (92, mkLine NaN NaN NaN (rofZ 0));
        (0, mkLine NaN (rofZ 2) NaN NaN); (92, GcodeLine_default);
        (1, mkLine (rofZ 4) NaN NaN (rofZ 1))])
  = spec_strokes GcodeImporter_default
      [(92, mkLine (rofZ 0) (rofZ 0) (rofZ 0) NaN);
       (1, mkLine (rofZ 3) NaN NaN (rofZ 1)); (92, mkLine NaN NaN NaN (rofZ 0));
       (0, mkLine NaN (rofZ 2) NaN NaN); (92, GcodeLine_default);
       (1, mkLine (rofZ 4) NaN NaN (rofZ 1))].
Proof.
  exact (proj1 (X17_vertices_are_world_positions GcodeImporter_default
                  [(92, mkLine (rofZ 0) (rofZ 0) (rofZ 0) NaN);
                   (1, mkLine (rofZ 3) NaN NaN (rofZ 1));
                   (92, mkLine NaN NaN NaN (rofZ 0));
                   (0, mkLine NaN (rofZ 2) NaN NaN); (92, GcodeLine_default);
                   (1, mkLine (rofZ 4) NaN NaN (rofZ 1))] eq_refl)).
Defined.
